(** * Verification of the LangGraph prospect-to-lead workflow builder

    A shallow embedding of [src/langgraph_builder.py] (workflow validation,
    placeholder resolution, state update, node functions, graph execution,
    [main]) and of the agents' [run] methods in [src/agents/].

    Python values are modelled by [value]; a Python [dict] by an association
    list kept in insertion order with unique keys ([dict]); exceptions by the
    left side of a sum ([exc + A]). A Python [str] is held as its UTF-8
    encoding: the functions that look at characters ([len], slicing,
    [str.strip], [str.split]) decode it; prefix and suffix tests, splitting
    on ["."], comparison and concatenation work on the bytes, which gives the
    same results on valid UTF-8. Floats are IEEE 754 binary64 numbers
    ([spec_float] with 53 bits of precision and [emax] 1024). *)

From Stdlib Require Import String Ascii List Bool ZArith QArith Lia Lqa.
From Stdlib Require Import Qround Sorting.Sorted Sorting.Permutation SpecFloat.
Import ListNotations.
Open Scope string_scope.
Set Warnings "-register-all".

(** ** Python values *)

(** A location of a [dict] object in the heap (see the scoring agent). *)
Definition loc := nat.

(** [VNum q] is a number written in the JSON input or in the source: the
    [int] [Qnum q] when [Qden q = 1], otherwise the [float] literal [q], which
    Python holds as the binary64 nearest to [q] ([float_of_Q] below).
    [VFloat f] is a [float] given by its binary64 value, such as one the
    program computes. *)
Inductive value : Type :=
| VNull
| VBool (b : bool)
| VNum (q : Q)
| VFloat (f : spec_float)
| VStr (s : string)
| VList (l : list value)
| VObj (kvs : list (string * value))
| VRef (l : loc).

Definition dict := list (string * value).

(** A raised Python exception, as ["Class: message"]. *)
Definition exc := string.

(** Sequencing of code that may raise. *)
Definition bind {A B : Type} (c : exc + A) (k : A -> exc + B) : exc + B :=
  match c with inl e => inl e | inr a => k a end.

Notation "x <-? c ;; k" := (bind c (fun x => k))
  (at level 61, c at next level, right associativity).

(** [str(e)]: the message after the class name. *)
Fixpoint drop_class_name (s : string) : option string :=
  match s with
  | EmptyString => None
  | String c rest =>
      if Ascii.eqb c ":"%char then
        match rest with
        | String c' rest' => if Ascii.eqb c' " "%char then Some rest' else drop_class_name rest
        | EmptyString => None
        end
      else drop_class_name rest
  end.

Definition exc_message (e : exc) : string :=
  match drop_class_name e with Some m => m | None => e end.

(** ** Binary64 floats and Python numbers *)

Definition prec64 : Z := 53.
Definition emax64 : Z := 1024.

(** The exact value of the finite float [(-1)^s * m * 2^e]. *)
Definition Q_of_bits (s : bool) (m : positive) (e : Z) : Q :=
  let n := if s then Zneg m else Zpos m in
  match e with
  | Z0 => inject_Z n
  | Zpos p => inject_Z (n * Z.pow_pos 2 p)
  | Zneg p => n # Pos.pow 2 p
  end.

(** An integer held exactly, as the operand of a correctly rounded
    operation. *)
Definition exact_of_Z (z : Z) : spec_float :=
  match z with
  | Z0 => S754_zero false
  | Zpos p => S754_finite false p 0
  | Zneg p => S754_finite true p 0
  end.

(** The binary64 nearest to [q], ties to even, an infinity beyond the
    range: [SFdiv] rounds the exact quotient of its two operands. *)
Definition float_of_Q (q : Q) : spec_float :=
  SFdiv prec64 emax64 (exact_of_Z (Qnum q)) (exact_of_Z (Zpos (Qden q))).

(** A Python number: an [int] or a [float]. *)
Inductive pynum : Type :=
| PInt (z : Z)
| PFloat (f : spec_float).

(** The number a [VNum] holds. *)
Definition num_of_lit (q : Q) : pynum :=
  if (Qden q =? 1)%positive then PInt (Qnum q) else PFloat (float_of_Q q).

(** A value used as a number ([bool] is an [int]); other values make
    arithmetic and comparisons raise [TypeError]. *)
Definition num_of_value (v : value) : exc + pynum :=
  match v with
  | VNum q => inr (num_of_lit q)
  | VFloat f => inr (PFloat f)
  | VBool b => inr (PInt (if b then 1 else 0))
  | _ => inl "TypeError: unsupported operand type(s)"
  end.

Definition value_of_num (p : pynum) : value :=
  match p with PInt z => VNum (z # 1) | PFloat f => VFloat f end.

(** Numbers ordered by value, with the two infinities; a NaN has no place. *)
Inductive ext : Type :=
| ENegInf
| EFin (x : Q)
| EPosInf.

Definition float_ext (f : spec_float) : option ext :=
  match f with
  | S754_zero _ => Some (EFin 0)
  | S754_infinity s => Some (if s then ENegInf else EPosInf)
  | S754_nan => None
  | S754_finite s m e => Some (EFin (Q_of_bits s m e))
  end.

Definition num_ext (p : pynum) : option ext :=
  match p with PInt z => Some (EFin (inject_Z z)) | PFloat f => float_ext f end.

Definition Qlt_bool (x y : Q) : bool := negb (Qle_bool y x).

Definition ext_lt (a b : ext) : bool :=
  match a, b with
  | ENegInf, ENegInf => false
  | ENegInf, _ => true
  | EFin _, ENegInf => false
  | EFin x, EFin y => Qlt_bool x y
  | EFin _, EPosInf => true
  | EPosInf, _ => false
  end.

(** [a < b] and [a <= b] on numbers: [int] and [float] compare by their
    exact values; every comparison with a NaN is false. *)
Definition num_lt (a b : pynum) : bool :=
  match num_ext a, num_ext b with Some x, Some y => ext_lt x y | _, _ => false end.

Definition num_le (a b : pynum) : bool :=
  match num_ext a, num_ext b with Some x, Some y => negb (ext_lt y x) | _, _ => false end.

(** [float(i)] for an [int] operand of a mixed operation: correctly
    rounded. *)
Definition float_of_int (z : Z) : exc + spec_float :=
  match binary_normalize prec64 emax64 z 0 false with
  | S754_infinity _ => inl "OverflowError: int too large to convert to float"
  | f => inr f
  end.

Definition to_float (p : pynum) : exc + spec_float :=
  match p with PInt z => float_of_int z | PFloat f => inr f end.

(** [+], [-], [*]: exact on two [int]s, otherwise on binary64 floats after
    converting an [int] operand. *)
Definition num_arith (int_op : Z -> Z -> Z) (float_op : spec_float -> spec_float -> spec_float)
    (a b : pynum) : exc + pynum :=
  match a, b with
  | PInt x, PInt y => inr (PInt (int_op x y))
  | _, _ => x <-? to_float a ;; y <-? to_float b ;; inr (PFloat (float_op x y))
  end.

Definition num_add : pynum -> pynum -> exc + pynum := num_arith Z.add (SFadd prec64 emax64).
Definition num_sub : pynum -> pynum -> exc + pynum := num_arith Z.sub (SFsub prec64 emax64).
Definition num_mul : pynum -> pynum -> exc + pynum := num_arith Z.mul (SFmul prec64 emax64).

(** [/]: on two [int]s the exact quotient correctly rounded; otherwise
    binary64 division. *)
Definition num_div (a b : pynum) : exc + pynum :=
  match a, b with
  | PInt x, PInt y =>
      if Z.eqb y 0 then inl "ZeroDivisionError: division by zero" else
      match SFdiv prec64 emax64 (exact_of_Z x) (exact_of_Z y) with
      | S754_infinity _ => inl "OverflowError: integer division result too large for a float"
      | f => inr (PFloat f)
      end
  | _, _ =>
      x <-? to_float a ;; y <-? to_float b ;;
      match y with
      | S754_zero _ => inl "ZeroDivisionError: float division by zero"
      | _ => inr (PFloat (SFdiv prec64 emax64 x y))
      end
  end.

(** A number as an exact rational, for the code that compares numbers
    exactly: an [int] ([bool] is one) or a finite [float] by its value. An
    infinity or a NaN has no such value and is refused, so the functions
    that use [as_num] are faithful on finite numbers only. *)
Definition as_num (v : value) : exc + Q :=
  p <-? num_of_value v ;;
  match num_ext p with
  | Some (EFin x) => inr x
  | _ => inl "ValueError: an infinity or a NaN"
  end.

(** [type(v).__name__] *)
Definition py_type_name (v : value) : string :=
  match v with
  | VNull => "NoneType"
  | VBool _ => "bool"
  | VNum q => if (Qden q =? 1)%positive then "int" else "float"
  | VFloat _ => "float"
  | VStr _ => "str"
  | VList _ => "list"
  | VObj _ | VRef _ => "dict"
  end.

(** [d.get(k)] / [k in d] *)
Fixpoint dict_get (k : string) (d : dict) : option value :=
  match d with
  | [] => None
  | (k', v) :: d' => if String.eqb k k' then Some v else dict_get k d'
  end.

Definition dict_mem (k : string) (d : dict) : bool :=
  match dict_get k d with Some _ => true | None => false end.

(** [d.get(k, default)] *)
Definition dict_get_default (k : string) (dflt : value) (d : dict) : value :=
  match dict_get k d with Some v => v | None => dflt end.

(** [d[k] = v]: an existing key keeps its position, a new key is appended. *)
Fixpoint dict_set (k : string) (v : value) (d : dict) : dict :=
  match d with
  | [] => [(k, v)]
  | (k', v') :: d' =>
      if String.eqb k k' then (k', v) :: d' else (k', v') :: dict_set k v d'
  end.

(** Python truthiness ([if x:] / [not x]). *)
Definition truthy (v : value) : bool :=
  match v with
  | VNull => false
  | VBool b => b
  | VNum q => match num_of_lit q with
              | PInt z => negb (Z.eqb z 0)
              | PFloat f => match f with S754_zero _ => false | _ => true end
              end
  | VFloat f => match f with S754_zero _ => false | _ => true end
  | VStr s => negb (String.eqb s "")
  | VList l => negb (Nat.eqb (List.length l) 0)
  | VObj d => negb (Nat.eqb (List.length d) 0)
  | VRef _ => true
  end.

(** ** String helpers: [str.startswith], [str.endswith], [str.strip], [str.split] *)

Definition startswith (s pre : string) : bool := String.prefix pre s.

Definition endswith (s suf : string) : bool :=
  String.prefix (string_of_list_ascii (rev (list_ascii_of_string suf)))
                (string_of_list_ascii (rev (list_ascii_of_string s))).

(** Drop leading characters satisfying [p]. *)
Fixpoint lstrip_by (p : ascii -> bool) (s : list ascii) : list ascii :=
  match s with
  | [] => []
  | c :: s' => if p c then lstrip_by p s' else s
  end.

(** [s.strip(chars)]: drop leading, then trailing, characters satisfying [p]. *)
Definition strip_by (p : ascii -> bool) (s : string) : string :=
  string_of_list_ascii (rev (lstrip_by p (rev (lstrip_by p (list_ascii_of_string s))))).

Definition is_brace (c : ascii) : bool :=
  (Ascii.eqb c "{"%char || Ascii.eqb c "}"%char)%bool.

(** The length in bytes of the character [s] starts with when Python's
    [str.isspace] holds for it, 0 otherwise. [str.isspace] holds for
    \t \n \x0b \x0c \r, \x1c to \x1f, the space, U+0085, U+00A0, U+1680,
    U+2000 to U+200A, U+2028, U+2029, U+202F, U+205F and U+3000, here by
    their UTF-8 encodings. *)
Definition py_space_len (s : list ascii) : nat :=
  match map nat_of_ascii s with
  | [] => 0
  | n :: rest =>
      if ((9 <=? n) && (n <=? 13) || (28 <=? n) && (n <=? 32))%nat then 1 else
      match rest with
      | [] => 0
      | m :: rest' =>
          if ((n =? 194) && ((m =? 133) || (m =? 160)))%nat then 2 else
          match rest' with
          | [] => 0
          | k :: _ =>
              if ((n =? 225) && (m =? 154) && (k =? 128)
                  || (n =? 226) && (m =? 128)
                     && ((128 <=? k) && (k <=? 138) || (k =? 168) || (k =? 169) || (k =? 175))
                  || (n =? 226) && (m =? 129) && (k =? 159)
                  || (n =? 227) && (m =? 128) && (k =? 128))%nat
              then 3 else 0
          end
      end
  end.

(** The same, for the character the reversed bytes [r] start with (the
    last character of the string). *)
Definition py_space_len_rev (r : list ascii) : nat :=
  match r with
  | c :: c1 :: c2 :: _ =>
      if (py_space_len [c] =? 1)%nat then 1
      else if (py_space_len [c1; c] =? 2)%nat then 2
      else if (py_space_len [c2; c1; c] =? 3)%nat then 3 else 0
  | c :: c1 :: _ =>
      if (py_space_len [c] =? 1)%nat then 1
      else if (py_space_len [c1; c] =? 2)%nat then 2 else 0
  | [c] => py_space_len [c]
  | [] => 0
  end.

(** Drop the leading whitespace characters, [len] giving the length of the
    one in front; [skip] bytes of the current one are still to drop. *)
Fixpoint drop_spaces (len : list ascii -> nat) (skip : nat) (s : list ascii) : list ascii :=
  match s with
  | [] => []
  | c :: s' =>
      match skip with
      | S k => drop_spaces len k s'
      | O => match len s with O => s | S k => drop_spaces len k s' end
      end
  end.

Definition lstrip_ws (s : list ascii) : list ascii := drop_spaces py_space_len 0 s.

Definition rstrip_ws (s : list ascii) : list ascii :=
  rev (drop_spaces py_space_len_rev 0 (rev s)).

(** [s.strip()] *)
Definition py_strip (s : string) : string :=
  string_of_list_ascii (rstrip_ws (lstrip_ws (list_ascii_of_string s))).

(** A UTF-8 continuation byte, 0b10xxxxxx. *)
Definition is_cont_byte (c : ascii) : bool :=
  let n := nat_of_ascii c in ((128 <=? n) && (n <? 192))%nat.

(** The characters of a string, each given by its UTF-8 bytes. *)
Fixpoint utf8_chars (s : list ascii) : list (list ascii) :=
  match s with
  | [] => []
  | c :: s' =>
      match utf8_chars s' with
      | ((c' :: _) as ch) :: rest =>
          if is_cont_byte c' then (c :: ch) :: rest else [c] :: ch :: rest
      | chs => [c] :: chs
      end
  end.

(** [s.split(sep)] for a one-character separator: never empty. *)
Fixpoint split_chars (sep : ascii) (s : list ascii) : list (list ascii) :=
  match s with
  | [] => [[]]
  | c :: s' =>
      if Ascii.eqb c sep then [] :: split_chars sep s'
      else match split_chars sep s' with
           | [] => [[c]]
           | w :: ws => (c :: w) :: ws
           end
  end.

Definition split_dot (s : string) : list string :=
  map string_of_list_ascii (split_chars "."%char (list_ascii_of_string s)).

(** ** [extract_state_key] (langgraph_builder.py, lines 279-299) *)

Definition extract_state_key (placeholder : string) : string :=
  let placeholder := py_strip (strip_by is_brace placeholder) in
  let parts := split_dot placeholder in
  if ((3 <=? List.length parts)%nat && String.eqb (nth 1 parts "") "output")%bool
  then nth 2 parts ""
  else last parts "".

(** ** [prepare_inputs_from_state] (langgraph_builder.py, lines 249-276)

    The workflow state is a flat [dict]; the function also returns the
    warnings it logs, in order. *)

Definition state_key_warning (state_key : string) : string :=
  "State key '" ++ state_key ++ "' not found in state".

Fixpoint prepare_inputs_aux (input_config : dict) (state : dict)
    (resolved_inputs : dict) (warnings : list string) : dict * list string :=
  match input_config with
  | [] => (resolved_inputs, warnings)
  | (key, value) :: rest =>
      match value with
      | VStr s =>
          if (startswith s "{{" && endswith s "}}")%bool then
            let state_key := extract_state_key s in
            match dict_get state_key state with
            | Some v => prepare_inputs_aux rest state (dict_set key v resolved_inputs) warnings
            | None =>
                prepare_inputs_aux rest state (dict_set key value resolved_inputs)
                  (warnings ++ [state_key_warning state_key])
            end
          else prepare_inputs_aux rest state (dict_set key value resolved_inputs) warnings
      | _ => prepare_inputs_aux rest state (dict_set key value resolved_inputs) warnings
      end
  end.

Definition prepare_inputs_from_state (input_config : dict) (state : dict)
    : dict * list string :=
  prepare_inputs_aux input_config state [] [].

(** What [prepare_inputs_from_state] makes of one input value. *)
Definition resolve_one (v : value) (state : dict) : value :=
  match v with
  | VStr s =>
      if (startswith s "{{" && endswith s "}}")%bool then
        match dict_get (extract_state_key s) state with
        | Some v' => v'
        | None => v
        end
      else v
  | _ => v
  end.

(** ** [validate_workflow] (langgraph_builder.py, lines 85-127)

    Returns [inr true] or raises. The messages keep the source's wording
    without the step id it interpolates. A workflow that is not a [dict]
    (the parameter is annotated [Dict]) fails on its first subscript. *)

Fixpoint first_missing (fields : list string) (d : dict) : option string :=
  match fields with
  | [] => None
  | f :: fs => if dict_mem f d then first_missing fs d else Some f
  end.

Definition required_step_fields : list string := ["id"; "agent"; "inputs"; "instructions"].

Fixpoint validate_steps (steps : list value) : exc + bool :=
  match steps with
  | [] => inr true
  | step :: rest =>
      match step with
      | VObj st =>
          match first_missing required_step_fields st with
          | Some f => inl ("ValueError: Step missing field: " ++ f)
          | None => validate_steps rest
          end
      | _ => inl "AttributeError: object has no attribute 'get'"
      end
  end.

Definition validate_workflow (workflow : value) : exc + bool :=
  match workflow with
  | VObj wf =>
      match first_missing ["workflow_name"; "steps"] wf with
      | Some f => inl ("ValueError: Missing required field: " ++ f)
      | None =>
          match dict_get "steps" wf with
          | Some (VList ((_ :: _) as steps)) => validate_steps steps
          | _ => inl "ValueError: Workflow must have at least one step"
          end
      end
  | _ => inl "TypeError: workflow is not a dict"
  end.

(** ** [update_state_with_output] (langgraph_builder.py, lines 302-337) *)

Definition output_mapping : list (string * string) :=
  [("prospect_search", "leads"); ("enrichment", "enriched_leads");
   ("scoring", "ranked_leads"); ("outreach_content", "messages");
   ("send", "sent_status"); ("response_tracking", "responses");
   ("feedback_trainer", "recommendations")].

Fixpoint assoc_str (k : string) (m : list (string * string)) : option string :=
  match m with
  | [] => None
  | (k', v) :: m' => if String.eqb k k' then Some v else assoc_str k m'
  end.

Definition in_mapping_values (k : string) : bool :=
  existsb (fun kv => String.eqb k (snd kv)) output_mapping.

Fixpoint update_state_aux (state : dict) (step_id : string) (output : dict) : dict :=
  match output with
  | [] => state
  | (key, v) :: rest =>
      let state :=
        if in_mapping_values key then dict_set key v state
        else match assoc_str step_id output_mapping with
             | Some target => dict_set target v state
             | None => state
             end in
      update_state_aux state step_id rest
  end.

(** No statement follows the source's comment "Also store raw output under
    step_id for debugging": the function returns the state as updated by the
    loop. *)
Definition update_state_with_output (state : dict) (step_id : string) (output : dict) : dict :=
  update_state_aux state step_id output.

(** ** Agents, nodes and the graph *)

(** [agent_instance.run(inputs)]: returns the output dict or raises. *)
Definition agent := dict -> exc + dict.

(** [load_agent_class]: the agent classes importable by name. *)
Definition registry := string -> option agent.

Record node := { node_id : string; node_step : dict; node_agent : agent }.

(** [state['step_count'] = state.get('step_count', 0) + 1] *)
Definition incr_step_count (state : dict) : exc + dict :=
  c <-? num_of_value (dict_get_default "step_count" (VNum 0) state) ;;
  c' <-? num_add c (PInt 1) ;;
  inr (dict_set "step_count" (value_of_num c') state).

(** The [except] branch of [node_function]: it sets [state['errors']] to
    [[]] when absent, appends ["<step_id>: <str(e)>"] to it and re-raises
    [e]; the exception propagates out of [graph.invoke], which drops the
    node's state. When [errors] holds something other than a list, [append]
    raises [AttributeError], which propagates instead of [e]. *)
Definition node_error (state : dict) (e : exc) : exc :=
  match dict_get "errors" state with
  | None | Some (VList _) => e
  | Some v => "AttributeError: '" ++ py_type_name v ++ "' object has no attribute 'append'"
  end.

(** [node_function] (langgraph_builder.py, lines 194-241). [state] is the
    dict LangGraph passes to the node. *)
Definition node_function (n : node) (state : dict) : exc + dict :=
  match dict_get "inputs" (node_step n) with
  | None => inl (node_error state "KeyError: 'inputs'")
  | Some (VObj input_config) =>
      let inputs := fst (prepare_inputs_from_state input_config state) in
      match node_agent n inputs with
      | inl e => inl (node_error state e)
      | inr output =>
          let state := update_state_with_output state (node_id n) output in
          match incr_step_count state with
          | inl e => inl (node_error state e)
          | inr state => inr state
          end
      end
  | Some v =>
      inl (node_error state ("AttributeError: '" ++ py_type_name v ++ "' object has no attribute 'items'"))
  end.

(** ** [graph.invoke] on the graph [build_langgraph] compiles

    The graph is a [StateGraph(WorkflowState)] (LangGraph 0.2): one channel
    per key of [WorkflowState], each keeping the last value written to it.
    Writing the input or a node's returned dict to the channels keeps the
    keys of [WorkflowState] and drops the others; a node receives a fresh
    dict of the channels that hold a value, in the order of
    [WorkflowState]'s keys; [invoke] returns the same dict after the last
    node. *)

Definition state_keys : list string :=
  ["icp"; "signals"; "leads"; "enriched_leads"; "ranked_leads"; "messages";
   "sent_status"; "responses"; "recommendations"; "step_count"; "errors"].

Definition write_channels (chans upd : dict) : dict :=
  flat_map (fun k => match dict_get k upd with
                     | Some v => [(k, v)]
                     | None => match dict_get k chans with Some v => [(k, v)] | None => [] end
                     end) state_keys.

(** The default [recursion_limit] of [invoke]: supersteps 0 to 25 may run;
    a run that would need superstep 26 raises. *)
Definition recursion_limit : nat := 25.

Definition graph_recursion_error : exc :=
  "GraphRecursionError: Recursion limit of 25 reached without hitting a stop condition. You can increase the limit by setting the `recursion_limit` config key.".

(** The linear chain: superstep 0 writes the input to the channels, node
    [i] of the chain runs in superstep [i]. [fuel] counts the supersteps
    still allowed, [recursion_limit + 1 - i] before superstep [i]. An
    exception raised by a node ends the run and propagates out of [invoke].
    The first component lists the ids of the nodes entered, in order. *)
Fixpoint run_chain (fuel : nat) (ns : list node) (chans : dict) : list string * (exc + dict) :=
  match fuel with
  | O => ([], inl graph_recursion_error)
  | S fuel' =>
      match ns with
      | [] => ([], inr chans)
      | n :: ns' =>
          match node_function n chans with
          | inl e => ([node_id n], inl e)
          | inr out =>
              let (trace, r) := run_chain fuel' ns' (write_channels chans out) in
              (node_id n :: trace, r)
          end
      end
  end.

Definition invoke_chain (ns : list node) (state : dict) : list string * (exc + dict) :=
  run_chain recursion_limit ns (write_channels [] state).

(** ** [build_langgraph] (langgraph_builder.py, lines 344-404) *)

(** [load_agent_class] (lines 138-172); the message goes on with the
    import error's. *)
Definition load_agent_class (reg : registry) (agent_name : string) : exc + agent :=
  match reg agent_name with
  | Some a => inr a
  | None => inl ("Exception: Could not load agent class '" ++ agent_name ++ "'")
  end.

Definition has_char (c : ascii) (s : string) : bool :=
  existsb (Ascii.eqb c) (list_ascii_of_string s).

(** [StateGraph.add_node(name, action)] with a string [name], [seen] the
    names already added (LangGraph 0.2). *)
Definition add_node_check (seen : list string) (name : string) : exc + unit :=
  if existsb (String.eqb name) state_keys then
    inl ("ValueError: '" ++ name ++ "' is already being used as a state key")
  else if existsb (String.eqb name) seen then
    inl ("ValueError: Node `" ++ name ++ "` already present.")
  else if (String.eqb name "__end__" || String.eqb name "__start__")%bool then
    inl ("ValueError: Node `" ++ name ++ "` is reserved.")
  else if has_char "|"%char name then
    inl "ValueError: '|' is a reserved character and is not allowed in the node names."
  else if has_char ":"%char name then
    inl "ValueError: ':' is a reserved character and is not allowed in the node names."
  else inr tt.

(** The loop over the steps: [step['id']], [step['agent']],
    [load_agent_class] (whose [re.sub] needs a string),
    [node_functions[step_id]] (the id must be hashable), [graph.add_node].
    A hashable id that is not a string is taken by [add_node] for the
    action and refused; the class of that exception depends on the LangGraph
    version. *)
Fixpoint build_nodes (reg : registry) (seen : list string) (steps : list value)
    : exc + list node :=
  match steps with
  | [] => inr []
  | VObj step :: rest =>
      match dict_get "id" step with
      | None => inl "KeyError: 'id'"
      | Some id_v =>
          match dict_get "agent" step with
          | None => inl "KeyError: 'agent'"
          | Some (VStr agent_name) =>
              a <-? load_agent_class reg agent_name ;;
              match id_v with
              | VStr step_id =>
                  u <-? add_node_check seen step_id ;;
                  ns <-? build_nodes reg (seen ++ [step_id]) rest ;;
                  inr ({| node_id := step_id; node_step := step; node_agent := a |} :: ns)
              | VList _ => inl "TypeError: unhashable type: 'list'"
              | VObj _ | VRef _ => inl "TypeError: unhashable type: 'dict'"
              | _ => inl "TypeError: a node name must be a string"
              end
          | Some _ => inl "TypeError: expected string or bytes-like object"
          end
      end
  | VStr _ :: _ => inl "TypeError: string indices must be integers, not 'str'"
  | VList _ :: _ => inl "TypeError: list indices must be integers or slices, not str"
  | v :: _ => inl ("TypeError: '" ++ py_type_name v ++ "' object is not subscriptable")
  end.

Definition build_langgraph (reg : registry) (workflow : dict) : exc + list node :=
  match dict_get "steps" workflow with
  | Some (VList steps) =>
      ns <-? build_nodes reg [] steps ;;
      match steps with
      | [] => inl "IndexError: list index out of range"
      | _ => inr ns
      end
  | Some _ => inl "TypeError: object is not iterable"
  | None => inl "KeyError: 'steps'"
  end.

(** ** [execute_langgraph] (langgraph_builder.py, lines 411-481)

    The report omits the timestamps and durations ([start_time], [end_time],
    [duration_seconds]); every other field is built as in the source. *)

(** [len(v)] *)
Definition py_len (v : value) : exc + nat :=
  match v with
  | VList l => inr (List.length l)
  | VStr s => inr (List.length (utf8_chars (list_ascii_of_string s)))
  | VObj d => inr (List.length d)
  | _ => inl "TypeError: object has no len()"
  end.

(** The initial state: [step_count], [errors], and the first step's inputs
    that are not strings starting with ["{{"]. Runs before the [try]. *)
Fixpoint add_direct_inputs (inputs : dict) (state : dict) : dict :=
  match inputs with
  | [] => state
  | (key, v) :: rest =>
      let state := match v with
                   | VStr s => if startswith s "{{" then state else dict_set key v state
                   | _ => dict_set key v state
                   end in
      add_direct_inputs rest state
  end.

Definition initial_state_of (workflow : dict) : exc + dict :=
  match dict_get "steps" workflow with
  | Some (VList (VObj first_step :: _)) =>
      match dict_get "inputs" first_step with
      | Some (VObj inputs) =>
          inr (add_direct_inputs inputs [("step_count", VNum 0); ("errors", VList [])])
      | Some _ => inl "AttributeError: object has no attribute 'items'"
      | None => inl "KeyError: 'inputs'"
      end
  | Some (VList []) => inl "IndexError: list index out of range"
  | Some _ => inl "TypeError: object is not subscriptable"
  | None => inl "KeyError: 'steps'"
  end.

Definition workflow_name_of (workflow : dict) : exc + value :=
  match dict_get "workflow_name" workflow with
  | Some v => inr v
  | None => inl "KeyError: 'workflow_name'"
  end.

(** The body of the [try] after [graph.invoke] returned. *)
Definition build_report (workflow : dict) (final_state : dict) : exc + dict :=
  wn <-? workflow_name_of workflow ;;
  let errors := dict_get_default "errors" (VList []) final_state in
  nerr <-? py_len errors ;;
  leads_count <-? py_len (dict_get_default "leads" (VList []) final_state) ;;
  ranked_count <-? py_len (dict_get_default "ranked_leads" (VList []) final_state) ;;
  messages_count <-? py_len (dict_get_default "messages" (VList []) final_state) ;;
  recs_count <-? py_len (dict_get_default "recommendations" (VList []) final_state) ;;
  inr [("workflow_name", wn);
       ("steps_executed", dict_get_default "step_count" (VNum 0) final_state);
       ("status", VStr (if Nat.eqb nerr 0 then "completed" else "partial_failure"));
       ("errors", errors);
       ("final_state", VObj [("leads_count", VNum (Z.of_nat leads_count # 1));
                             ("ranked_leads_count", VNum (Z.of_nat ranked_count # 1));
                             ("messages_count", VNum (Z.of_nat messages_count # 1));
                             ("recommendations_count", VNum (Z.of_nat recs_count # 1))])].

(** The [except] branch. *)
Definition failed_report (workflow : dict) (e : exc) : exc + dict :=
  wn <-? workflow_name_of workflow ;;
  inr [("workflow_name", wn); ("status", VStr "failed"); ("error", VStr (exc_message e))].

Definition execute_langgraph (ns : list node) (workflow : dict)
    : list string * (exc + dict) :=
  match initial_state_of workflow with
  | inl e => ([], inl e)
  | inr initial_state =>
      let (trace, r) := invoke_chain ns initial_state in
      (trace,
       match r with
       | inr final_state =>
           match build_report workflow final_state with
           | inr results => inr results
           | inl e => failed_report workflow e
           end
       | inl e => failed_report workflow e
       end)
  end.

(** ** [main] (langgraph_builder.py, lines 519-546)

    [loaded] is the outcome of [load_workflow("workflow.json")]. The result
    pairs the ids of the nodes entered with the saved report, or with the
    exception [main] re-raises. *)
Definition main (reg : registry) (loaded : exc + value) : list string * (exc + dict) :=
  match loaded with
  | inl e => ([], inl e)
  | inr workflow =>
      match validate_workflow workflow with
      | inl e => ([], inl e)
      | inr _ =>
          match workflow with
          | VObj wf =>
              match build_langgraph reg wf with
              | inl e => ([], inl e)
              | inr graph => execute_langgraph graph wf
              end
          | _ => ([], inl "TypeError: workflow is not a dict")
          end
      end
  end.

(** ** The agents' [run] methods (src/agents/)

    [BaseAgent.validate_inputs]: true when no required field is missing. The
    log it writes ([json.dumps] of the missing and received key names) does
    not raise. *)
Definition validate_inputs (inputs : dict) (required_fields : list string) : bool :=
  forallb (fun f => dict_mem f inputs) required_fields.

(** *** ScoringAgent (scoring_agent.py)

    Lead dicts are objects: a lead is held inline ([VObj]) or by reference
    ([VRef]) into a heap of dict objects, which lets the model say which
    objects [run] writes to. [lead.copy()] allocates a fresh object at the end
    of the heap. *)

Definition heap := list dict.

(** The dict object a lead designates ([lead.get] on anything else raises). *)
Definition deref (h : heap) (v : value) : exc + dict :=
  match v with
  | VObj d => inr d
  | VRef l => match nth_error h l with
              | Some d => inr d
              | None => inl "NameError: no such object"
              end
  | _ => inl ("AttributeError: '" ++ py_type_name v ++ "' object has no attribute 'get'")
  end.

Fixpoint heap_set (h : heap) (l : loc) (d : dict) : heap :=
  match h, l with
  | [], _ => []
  | _ :: h', O => d :: h'
  | d' :: h', S l' => d' :: heap_set h' l' d
  end.

(** [round(x, 2)] on the exact value [y = 100 x]: the nearest integer,
    ties to even. *)
Definition round_half_even (y : Q) : Z :=
  let f := Qfloor y in
  let fr := y - inject_Z f in
  if Qlt_bool fr (1 # 2) then f
  else if Qlt_bool (1 # 2) fr then (f + 1)%Z
  else if Z.even f then f else (f + 1)%Z.

(** [round(x, 2)]: an [int] is returned as it is; a finite [float] becomes
    the float nearest to the multiple of 1/100 nearest to its value (ties to
    even), a zero of its sign when that multiple is 0; an infinity or a NaN
    is returned as it is. *)
Definition num_round2 (p : pynum) : pynum :=
  match p with
  | PFloat (S754_finite s m e) =>
      let k := round_half_even (Q_of_bits s m e * 100) in
      if Z.eqb k 0 then PFloat (S754_zero s) else PFloat (float_of_Q (k # 100))
  | _ => p
  end.

(** [min(total_score, 100)]: [min] keeps its first argument unless the second
    is smaller. *)
Definition num_min_100 (p : pynum) : pynum :=
  if num_lt (PInt 100) p then PInt 100 else p.

(** [ScoringAgent._calculate_score] (lines 95-141). The weights are the
    values [run] read from [scoring_criteria]; they are first used in the
    weighted total, which Python evaluates as
    [(rs * rw + es * ew) + ss * sw]. A non-numeric value makes the code raise
    [TypeError], possibly at a later operation and with another message
    (an [int] times a [str] is a repeated string, for instance). *)
Definition calculate_score (lead : dict) (revenue_weight employee_weight signal_weight : value)
    : exc + pynum :=
  revenue <-? num_of_value (dict_get_default "revenue" (VNum 50000000) lead) ;;
  revenue_score <-?
    (if num_le (PInt 200000000) revenue then inr (PInt 100)
     else if num_le (PInt 20000000) revenue then
       d <-? num_sub revenue (PInt 20000000) ;;
       q <-? num_div d (PInt 180000000) ;;
       m <-? num_mul q (PInt 50) ;;
       num_add (PInt 50) m
     else
       q <-? num_div revenue (PInt 20000000) ;;
       num_mul q (PInt 50)) ;;
  employees <-? num_of_value (dict_get_default "employee_count" (VNum 300) lead) ;;
  employee_score <-?
    (if (num_le (PInt 100) employees && num_le employees (PInt 1000))%bool then inr (PInt 100)
     else if num_lt (PInt 1000) employees then inr (PInt 80)
     else
       q <-? num_div employees (PInt 100) ;;
       num_mul q (PInt 80)) ;;
  let signal_score := if truthy (dict_get_default "signal" (VStr "") lead) then PInt 100 else PInt 50 in
  rw <-? num_of_value revenue_weight ;;
  t1 <-? num_mul revenue_score rw ;;
  ew <-? num_of_value employee_weight ;;
  t2 <-? num_mul employee_score ew ;;
  t12 <-? num_add t1 t2 ;;
  sw <-? num_of_value signal_weight ;;
  t3 <-? num_mul signal_score sw ;;
  total_score <-? num_add t12 t3 ;;
  inr (num_min_100 total_score).

(** The scoring loop (lines 61-73): each lead is copied, the copy gets
    ["score"] and is appended to [scored_leads]; the pairs carry the sort key. *)
Fixpoint score_leads (h : heap) (leads : list value) (rw ew sw : value)
    : exc + (heap * list (loc * pynum)) :=
  match leads with
  | [] => inr (h, [])
  | lead :: rest =>
      d <-? deref h lead ;;
      score <-? calculate_score d rw ew sw ;;
      let s := num_round2 score in
      let l := List.length h in
      let h := (h ++ [dict_set "score" (value_of_num s) d])%list in
      r <-? score_leads h rest rw ew sw ;;
      inr (fst r, (l, s) :: snd r)
  end.

(** [sorted(scored_leads, key=lambda x: x["score"], reverse=True)] as a
    stable sort, highest first, equal scores in their original order. This
    is what CPython's sort gives when no score is a NaN. *)
Fixpoint insert_desc (x : loc * pynum) (l : list (loc * pynum)) : list (loc * pynum) :=
  match l with
  | [] => [x]
  | y :: l' => if num_lt (snd y) (snd x) then x :: l else y :: insert_desc x l'
  end.

Definition sort_desc (l : list (loc * pynum)) : list (loc * pynum) :=
  fold_left (fun acc x => insert_desc x acc) l [].

(** [for i, lead in enumerate(ranked_leads, 1): lead["ranking"] = i] *)
Fixpoint set_rankings (h : heap) (ranked : list loc) (i : nat) : heap :=
  match ranked with
  | [] => h
  | l :: rest =>
      let h := match nth_error h l with
               | Some d => heap_set h l (dict_set "ranking" (VNum (Z.of_nat i # 1)) d)
               | None => h
               end in
      set_rankings h rest (S i)
  end.

(** [not leads], with a dict in the heap looked up. *)
Definition truthy_in (h : heap) (v : value) : bool :=
  match v with
  | VRef l => match nth_error h l with
              | Some d => negb (Nat.eqb (List.length d) 0)
              | None => true
              end
  | _ => truthy v
  end.

(** [len(leads)], then [for lead in leads]: a list gives its items, a
    string its characters, a dict its keys. *)
Definition iter_leads (h : heap) (leads : value) : exc + list value :=
  match leads with
  | VList ls => inr ls
  | VStr s => inr (map (fun c => VStr (string_of_list_ascii c)) (utf8_chars (list_ascii_of_string s)))
  | VObj d => inr (map (fun kv => VStr (fst kv)) d)
  | VRef l => d <-? deref h (VRef l) ;; inr (map (fun kv => VStr (fst kv)) d)
  | v => inl ("TypeError: object of type '" ++ py_type_name v ++ "' has no len()")
  end.

(** [ScoringAgent.run] (lines 28-93). The final log line reads
    [ranked_leads[0]['company']]. *)
Definition ScoringAgent_run (h : heap) (inputs : dict) : heap * (exc + dict) :=
  if negb (validate_inputs inputs ["leads"]) then (h, inr [("ranked_leads", VList [])]) else
  let leads := dict_get_default "leads" (VList []) inputs in
  let scoring_criteria := dict_get_default "scoring_criteria" (VObj []) inputs in
  if negb (truthy_in h leads) then (h, inr [("ranked_leads", VList [])]) else
  match iter_leads h leads with
  | inl e => (h, inl e)
  | inr ls =>
      match deref h scoring_criteria with
      | inl e => (h, inl e)
      | inr crit =>
          let rw := dict_get_default "revenue_weight" (VNum (3 # 10)) crit in
          let ew := dict_get_default "employee_count_weight" (VNum (2 # 10)) crit in
          let sw := dict_get_default "signal_weight" (VNum (5 # 10)) crit in
          match score_leads h ls rw ew sw with
          | inl e => (h, inl e)
          | inr (h1, scored) =>
              let ranked := map fst (sort_desc scored) in
              let h2 := set_rankings h1 ranked 1 in
              match ranked with
              | [] => (h2, inl "IndexError: list index out of range")
              | top :: _ =>
                  match nth_error h2 top with
                  | Some d =>
                      if dict_mem "company" d
                      then (h2, inr [("ranked_leads", VList (map VRef ranked))])
                      else (h2, inl "KeyError: 'company'")
                  | None => (h2, inl "IndexError: list index out of range")
                  end
              end
          end
      end
  end.

(** *** The other agents

    Their work after input validation (random sampling and sleeps in
    ProspectSearchAgent, the LLM call or templates in OutreachContentAgent,
    simulated metrics in FeedbackTrainerAgent) is outside the claims and is
    a parameter of each [run]. *)
Section OtherAgents.

Variable search_prospects : dict -> exc + dict.
Variable generate_messages : dict -> exc + dict.
Variable analyse_responses : dict -> exc + dict.

(** [ProspectSearchAgent.run] (prospect_search_agent.py, lines 35-56 and on). *)
Definition ProspectSearchAgent_run (inputs : dict) : exc + dict :=
  if negb (validate_inputs inputs ["industry"; "location"; "employee_count"; "signals"])
  then inr [("leads", VList [])]
  else search_prospects inputs.

(** [OutreachContentAgent.run] (outreach_content_agent.py, lines 56-113). *)
Definition OutreachContentAgent_run (inputs : dict) : exc + dict :=
  if negb (validate_inputs inputs ["ranked_leads"]) then inr [("messages", VList [])]
  else if negb (truthy (dict_get_default "ranked_leads" (VList []) inputs))
  then inr [("messages", VList [])]
  else generate_messages inputs.

(** [FeedbackTrainerAgent.run] (feedback_trainer_agent.py, lines 31-54 and on). *)
Definition FeedbackTrainerAgent_run (inputs : dict) : exc + dict :=
  if negb (validate_inputs inputs ["responses"])
  then inr [("recommendations", VList []); ("status", VStr "failed")]
  else if negb (truthy (dict_get_default "responses" (VList []) inputs))
  then inr [("recommendations", VList []); ("status", VStr "no_data")]
  else analyse_responses inputs.

End OtherAgents.

(** ** The claims' reading of a well-formed workflow mapping

    [workflow_name] and [steps] present, [steps] a non-empty list, and every
    step a mapping holding [id], [agent], [inputs] and [instructions]. *)

Definition step_well_formed (step : value) : bool :=
  match step with
  | VObj d => (dict_mem "id" d && dict_mem "agent" d && dict_mem "inputs" d
               && dict_mem "instructions" d)%bool
  | _ => false
  end.

Definition workflow_well_formed (workflow : value) : bool :=
  match workflow with
  | VObj wf =>
      (dict_mem "workflow_name" wf &&
       match dict_get "steps" wf with
       | Some (VList steps) =>
           negb (Nat.eqb (List.length steps) 0) && forallb step_well_formed steps
       | _ => false
       end)%bool
  | _ => false
  end.

(** ** A three-step linear workflow whose second handler raises *)

Definition demo_step (step_id agent_name : string) (inputs : dict) : dict :=
  [("id", VStr step_id); ("agent", VStr agent_name); ("inputs", VObj inputs);
   ("instructions", VStr "run the step")].

Definition demo_step1 : dict :=
  demo_step "prospect_search" "ProspectSearchAgent" [("industry", VStr "SaaS")].
Definition demo_step2 : dict :=
  demo_step "scoring" "ScoringAgent" [("leads", VStr "{{prospect_search.output.leads}}")].
Definition demo_step3 : dict :=
  demo_step "outreach_content" "OutreachContentAgent"
    [("ranked_leads", VStr "{{scoring.output.ranked_leads}}")].

Definition demo_workflow_dict : dict :=
  [("workflow_name", VStr "demo");
   ("steps", VList [VObj demo_step1; VObj demo_step2; VObj demo_step3]);
   ("error_handling", VObj [("continue_on_error", VBool false)])].

Definition demo_workflow : value := VObj demo_workflow_dict.

(** Step 1 returns one lead; step 2 raises; step 3 would succeed. *)
Definition demo_search_agent : agent :=
  fun _ => inr [("leads", VList [VObj [("company", VStr "Acme")]])].
Definition demo_failing_agent : agent :=
  fun _ => inl "RuntimeError: scoring failed".
Definition demo_outreach_agent : agent :=
  fun _ => inr [("messages", VList [])].

Definition demo_registry : registry :=
  fun agent_name =>
    if String.eqb agent_name "ProspectSearchAgent" then Some demo_search_agent
    else if String.eqb agent_name "ScoringAgent" then Some demo_failing_agent
    else if String.eqb agent_name "OutreachContentAgent" then Some demo_outreach_agent
    else None.

Definition demo_node1 : node :=
  {| node_id := "prospect_search"; node_step := demo_step1; node_agent := demo_search_agent |}.
Definition demo_node2 : node :=
  {| node_id := "scoring"; node_step := demo_step2; node_agent := demo_failing_agent |}.
Definition demo_node3 : node :=
  {| node_id := "outreach_content"; node_step := demo_step3; node_agent := demo_outreach_agent |}.

(** The demo run, up to step 2: the initial state, step 1's returned state
    and step 2's [inputs]. *)
Definition demo_state0 : dict :=
  Eval vm_compute in
    match initial_state_of demo_workflow_dict with inr st => st | inl _ => [] end.

Definition demo_output1 : dict :=
  Eval vm_compute in
    match node_function demo_node1 (write_channels [] demo_state0) with
    | inr st => st
    | inl _ => []
    end.

Definition demo_inputs2 : dict :=
  Eval vm_compute in
    match dict_get "inputs" demo_step2 with Some (VObj c) => c | _ => [] end.


Definition valid_ref (h : heap) (v : value) : Prop :=
  match v with VRef l => (l < List.length h)%nat | _ => True end.

(** A lead [run] can score with the weights [rw], [ew], [sw]: a dict with a
    ["company"], whose score is not a NaN. *)
Definition scorable_lead (h : heap) (rw ew sw : value) (v : value) : Prop :=
  exists d p, deref h v = inr d /\ dict_mem "company" d = true /\
    calculate_score d rw ew sw = inr p /\ num_ext p <> None.

Definition score_of (h : heap) (l : loc) : option pynum :=
  match nth_error h l with
  | Some d => match dict_get "score" d with
              | Some v => match num_of_value v with inr p => Some p | inl _ => None end
              | None => None
              end
  | None => None
  end.


(** A bad workflow for each fatal path: [steps] missing; the first step's
    [inputs] not a mapping (validation does not check its type). *)
Definition no_steps_workflow : value := VObj [("workflow_name", VStr "w")].

Definition list_inputs_workflow : value :=
  VObj [("workflow_name", VStr "w");
        ("steps", VList [VObj [("id", VStr "prospect_search"); ("agent", VStr "ProspectSearchAgent");
                               ("inputs", VList []); ("instructions", VStr "search")]])].

(** ["{{a.output.b\u00a0}}"]: a reference ending in a no-break space. *)
Definition nbsp_placeholder : string :=
  "{{a.output.b" ++ String (ascii_of_nat 194) (String (ascii_of_nat 160) "}}").





(** ** The module name [load_agent_class] imports (langgraph_builder.py, line 154)

    [re.sub(r'(?<!^)(?=[A-Z])', '_', agent_name).lower()]: an underscore
    before every ASCII capital except at position 0, then lower case. Names
    are ASCII; [str.lower] is modelled on ASCII letters. *)
Definition is_upper (c : ascii) : bool :=
  let n := nat_of_ascii c in ((65 <=? n) && (n <=? 90))%nat.

Definition is_lower (c : ascii) : bool :=
  let n := nat_of_ascii c in ((97 <=? n) && (n <=? 122))%nat.

Definition to_lower (c : ascii) : ascii :=
  if is_upper c then ascii_of_nat (nat_of_ascii c + 32) else c.

Fixpoint snake_aux (at_start : bool) (s : list ascii) : list ascii :=
  match s with
  | [] => []
  | c :: s' =>
      ((if (is_upper c && negb at_start)%bool then ["_"%char; to_lower c] else [to_lower c])
       ++ snake_aux false s')%list
  end.

Definition module_name_of (agent_name : string) : string :=
  string_of_list_ascii (snake_aux true (list_ascii_of_string agent_name)).

(** The way back from a module name to a class name: capitalise after each
    underscore and at the start, drop the underscores. Not in the source;
    used to show that [module_name_of] loses nothing. *)
Definition to_upper (c : ascii) : ascii :=
  if is_lower c then ascii_of_nat (nat_of_ascii c - 32) else c.

Fixpoint camel_aux (cap : bool) (s : list ascii) : list ascii :=
  match s with
  | [] => []
  | c :: s' =>
      if Ascii.eqb c "_"%char then camel_aux true s'
      else (if cap then to_upper c else c) :: camel_aux false s'
  end.

Definition ascii_letters (s : string) : Prop :=
  Forall (fun c => (is_upper c || is_lower c)%bool = true) (list_ascii_of_string s).

Definition class_name_shape (s : string) : Prop :=
  ascii_letters s /\
  match list_ascii_of_string s with c :: _ => is_upper c = true | [] => False end.

(** ** Python comparisons, membership and randomness used by the agents *)

(** [s <= t] on strings: by code points, which UTF-8 bytes compare in the
    same order. *)
Fixpoint str_le (s t : string) : bool :=
  match s, t with
  | EmptyString, _ => true
  | String _ _, EmptyString => false
  | String a s', String b t' =>
      if Nat.ltb (nat_of_ascii a) (nat_of_ascii b) then true
      else if Nat.eqb (nat_of_ascii a) (nat_of_ascii b) then str_le s' t' else false
  end.

(** [a <= b] on numbers ([int], [bool], [float], by value; false with a
    NaN) and on two strings; lists, which Python orders lexicographically,
    are left out, and other operands raise. *)
Definition py_le (a b : value) : exc + bool :=
  match a, b with
  | VStr s, VStr t => inr (str_le s t)
  | _, _ =>
      match num_of_value a, num_of_value b with
      | inr x, inr y => inr (num_le x y)
      | _, _ => inl ("TypeError: '<=' not supported between instances of '" ++
                     py_type_name a ++ "' and '" ++ py_type_name b ++ "'")
      end
  end.

(** [a == b]. Numbers and booleans compare by value, strings by content,
    lists elementwise, dicts by their key sets and values; a [VRef] is
    compared by identity. *)
Fixpoint py_eq (a b : value) {struct a} : bool :=
  match a, b with
  | VNull, VNull => true
  | VStr s, VStr t => String.eqb s t
  | VList l, VList m =>
      (fix go (l m : list value) : bool :=
         match l, m with
         | [], [] => true
         | x :: l', y :: m' => (py_eq x y && go l' m')%bool
         | _, _ => false
         end) l m
  | VObj d, VObj e =>
      (Nat.eqb (List.length d) (List.length e) &&
       (fix go (d : list (string * value)) : bool :=
          match d with
          | [] => true
          | (k, v) :: d' =>
              match dict_get k e with Some w => (py_eq v w && go d')%bool | None => false end
          end) d)%bool
  | VRef l, VRef m => Nat.eqb l m
  | (VBool _ | VNum _ | VFloat _), (VBool _ | VNum _ | VFloat _) =>
      match num_of_value a, num_of_value b with
      | inr x, inr y => (num_le x y && num_le y x)%bool
      | _, _ => false
      end
  | _, _ => false
  end.

(** [sub in s] for strings. *)
Fixpoint str_contains (sub s : string) : bool :=
  (String.prefix sub s ||
   match s with EmptyString => false | String _ s' => str_contains sub s' end)%bool.

(** [x in container]. *)
Definition py_in (x container : value) : exc + bool :=
  match container with
  | VList l => inr (existsb (py_eq x) l)
  | VStr t =>
      match x with
      | VStr s => inr (str_contains s t)
      | _ => inl "TypeError: 'in <string>' requires string as left operand"
      end
  | VObj d =>
      match x with
      | VStr s => inr (dict_mem s d)
      | VList _ | VObj _ => inl "TypeError: unhashable type"
      | _ => inr false
      end
  | _ => inl "TypeError: argument is not iterable"
  end.

(** [random.randint(a, b)]: the draw [r] picks one of the [b - a + 1]
    values; an empty range raises. Every outcome of the source is the outcome
    for some [r]. *)
Definition py_randint (r : nat) (a b : Z) : exc + Z :=
  if (b <? a)%Z then inl "ValueError: empty range for randrange()"
  else inr (a + Z.of_nat r mod (b - a + 1))%Z.

Fixpoint remove_nth {A : Type} (i : nat) (l : list A) : list A :=
  match l, i with
  | [], _ => []
  | _ :: l', O => l'
  | x :: l', S i' => x :: remove_nth i' l'
  end.

Fixpoint sample_aux {A : Type} (d : A) (rs : list nat) (pop : list A) (k : nat) : list A :=
  match k with
  | O => []
  | S k' =>
      let i := (hd O rs) mod (List.length pop) in
      nth i pop d :: sample_aux d (tl rs) (remove_nth i pop) k'
  end.

(** [random.sample(population, k)]: [k] distinct positions of the population
    in the order drawn; the draws [rs] choose them, and every ordered choice
    is the outcome for some [rs]. *)
Definition py_sample (rs : list nat) (pop : list dict) (k : nat) : exc + list dict :=
  if (List.length pop <? k)%nat then inl "ValueError: Sample larger than population or is negative"
  else inr (sample_aux [] rs pop k).

(** *** ProspectSearchAgent (prospect_search_agent.py, lines 35-223) *)

Definition mock_company (company contact_name email linkedin title signal : string)
    (revenue employee_count : Z) : dict :=
  [("company", VStr company); ("contact_name", VStr contact_name); ("email", VStr email);
   ("linkedin", VStr linkedin); ("title", VStr title); ("signal", VStr signal);
   ("revenue", VNum (inject_Z revenue)); ("employee_count", VNum (inject_Z employee_count))].

Definition mock_companies : list dict :=
  [mock_company "CloudSync Technologies" "Sarah Mitchell" "sarah.mitchell@cloudsync.io"
     "linkedin.com/in/sarahmitchell" "VP of Sales" "recent_funding" 45000000 250;
   mock_company "DataFlow Systems" "Michael Chen" "m.chen@dataflow.com"
     "linkedin.com/in/michaelchen" "Chief Revenue Officer" "hiring_for_sales" 78000000 450;
   mock_company "AutoScale Inc" "Jennifer Rodriguez" "jrodriguez@autoscale.io"
     "linkedin.com/in/jenniferrodriguez" "Head of Business Development" "recent_funding" 32000000 180;
   mock_company "SecureAPI Solutions" "David Park" "david@secureapi.com"
     "linkedin.com/in/davidpark" "VP of Marketing" "hiring_for_sales" 125000000 620;
   mock_company "MetricsPro Analytics" "Amanda Johnson" "ajohnson@metricspro.com"
     "linkedin.com/in/amandajohnson" "Director of Sales" "recent_funding" 55000000 320;
   mock_company "PipelineHub" "Robert Kim" "rkim@pipelinehub.io"
     "linkedin.com/in/robertkim" "Chief Operating Officer" "hiring_for_sales" 89000000 410;
   mock_company "RevOps Platform" "Lisa Thompson" "lisa.t@revopsplatform.com"
     "linkedin.com/in/lisathompson" "VP of Revenue Operations" "recent_funding" 67000000 380;
   mock_company "GrowthEngine AI" "James Wilson" "jwilson@growthengine.ai"
     "linkedin.com/in/jameswilson" "Head of Sales" "hiring_for_sales" 42000000 215].

(** [min_employees <= emp_count <= max_employees]: the second comparison only
    runs when the first holds; an absent [max] is [float('inf')] ([None]
    here). *)
Definition in_employee_range (min_employees : value) (max_employees : option value)
    (emp_count : value) : exc + bool :=
  lo <-? py_le min_employees emp_count ;;
  if lo then
    match max_employees with
    | Some m => py_le emp_count m
    | None => match num_of_value emp_count with
              | inr x => inr (num_le x (PFloat (S754_infinity false)))
              | inl _ => inl ("TypeError: '<=' not supported between instances of '" ++
                              py_type_name emp_count ++ "' and 'float'")
              end
    end
  else inr false.

Fixpoint filter_icp_aux (min_employees : value) (max_employees : option value)
    (signals : value) (companies : list dict) : exc + list dict :=
  match companies with
  | [] => inr []
  | company :: rest =>
      ok <-? in_employee_range min_employees max_employees
               (dict_get_default "employee_count" (VNum 0) company) ;;
      if negb ok then filter_icp_aux min_employees max_employees signals rest else
      skip <-? (if truthy signals
                then b <-? py_in (dict_get_default "signal" (VStr "") company) signals ;;
                     inr (negb b)
                else inr false) ;;
      if skip then filter_icp_aux min_employees max_employees signals rest else
      r <-? filter_icp_aux min_employees max_employees signals rest ;;
      inr (company :: r)
  end.

(** [ProspectSearchAgent._filter_by_icp] *)
Definition filter_by_icp (companies : list dict) (employee_count signals : value)
    : exc + list dict :=
  match employee_count with
  | VObj ec =>
      filter_icp_aux (dict_get_default "min" (VNum 0) ec) (dict_get "max" ec) signals companies
  | _ => inl "AttributeError: object has no attribute 'get'"
  end.

(** What [ProspectSearchAgent.run] does after input validation (lines 58-186):
    filter the mock companies, draw the number of leads with
    [random.randint(5, min(8, len(filtered_leads)))] (draw [rn]) and the leads
    with [random.sample] (draws [rs]); the log line reads the first lead's
    [company] and [contact_name]. *)
Definition prospect_search_body (rn : nat) (rs : list nat) (inputs : dict) : exc + dict :=
  let employee_count := dict_get_default "employee_count" (VObj []) inputs in
  let signals := dict_get_default "signals" (VList []) inputs in
  filtered_leads <-? filter_by_icp mock_companies employee_count signals ;;
  num_leads <-? py_randint rn 5 (Z.min 8 (Z.of_nat (List.length filtered_leads))) ;;
  selected_leads <-? py_sample rs filtered_leads (Z.to_nat num_leads) ;;
  match selected_leads with
  | first :: _ =>
      if negb (dict_mem "company" first) then inl "KeyError: 'company'"
      else if negb (dict_mem "contact_name" first) then inl "KeyError: 'contact_name'"
      else inr [("leads", VList (map VObj selected_leads))]
  | [] => inr [("leads", VList [])]
  end.

(** *** OutreachContentAgent in template mode (outreach_content_agent.py)

    The mode when [OPENAI_API_KEY] is unset, a placeholder or starts with
    [mock_]. *)

(** [s.split()]: maximal runs of non-whitespace characters; [skip] bytes
    of the current whitespace character are still to pass. *)
Fixpoint split_ws_aux (skip : nat) (s : list ascii) (cur : list ascii) : list (list ascii) :=
  match s with
  | [] => match cur with [] => [] | _ => [rev cur] end
  | c :: s' =>
      match skip with
      | S k => split_ws_aux k s' cur
      | O =>
          match py_space_len s with
          | O => split_ws_aux 0 s' (c :: cur)
          | S k =>
              match cur with
              | [] => split_ws_aux k s' []
              | _ => rev cur :: split_ws_aux k s' []
              end
          end
      end
  end.

Definition py_split_ws (s : string) : list string :=
  map string_of_list_ascii (split_ws_aux 0 (list_ascii_of_string s) []).

(** [s == "lit"] for a string literal on the right. *)
Definition eq_lit (v : value) (lit : string) : bool :=
  match v with VStr s => String.eqb s lit | _ => false end.

(** [lst[:n]] with an [int] (or [None]) bound. *)
Definition py_slice_upto {A : Type} (l : list A) (n : option Z) : list A :=
  match n with
  | None => l
  | Some n =>
      if (0 <=? n)%Z then firstn (Z.to_nat n) l
      else firstn (Z.to_nat (Z.of_nat (List.length l) + n)) l
  end.

(** A slice bound: an [int] ([bool] is one), [None], or a [TypeError]. A
    [VNum] with denominator 1 models an [int]; any other a [float]. *)
Definition slice_index (v : value) : exc + option Z :=
  match v with
  | VNull => inr None
  | VBool b => inr (Some (if b then 1%Z else 0%Z))
  | VNum q => if (Qden q =? 1)%positive then inr (Some (Qnum q))
              else inl "TypeError: slice indices must be integers or None"
  | _ => inl "TypeError: slice indices must be integers or None"
  end.

Definition nl : string := String (ascii_of_nat 10) "".
Definition bullet : string :=
  String (ascii_of_nat 226) (String (ascii_of_nat 128) (String (ascii_of_nat 162) "")).

Section Formatting.

(** [str(v)] for a value that is not a string, as an f-string prints it. *)
Variable py_str : value -> string.
(** [format(x, '.1%')]. *)
Variable fmt_pct : Q -> string.

Definition fmt (v : value) : string :=
  match v with VStr s => s | _ => py_str v end.

(** [_create_email_body_template] (lines 251-295). *)
Definition create_email_body_template (first_name company title : string) (signal : value)
    : string :=
  let opening :=
    if eq_lit signal "recent_funding" then
      "I saw that " ++ company ++ " recently raised funding - congrats! That's exciting."
    else if eq_lit signal "hiring_for_sales" then
      "I noticed " ++ company ++ " is actively hiring for sales roles. Looks like you're scaling!"
    else
      "I've been following " ++ company ++ "'s growth and I'm impressed with what you're building." in
  "Hi " ++ first_name ++ "," ++ nl ++ nl ++ opening ++ nl ++ nl ++
  "I'm reaching out because we work with similar B2B companies to help them streamline their data analytics and improve decision-making processes." ++ nl ++ nl ++
  "Companies like yours often struggle with:" ++ nl ++
  bullet ++ " Fragmented data across multiple tools" ++ nl ++
  bullet ++ " Time-consuming manual reporting" ++ nl ++
  bullet ++ " Difficulty identifying growth opportunities" ++ nl ++ nl ++
  "Our platform at Analytos.ai helps solve these challenges by providing AI-powered analytics that surface actionable insights automatically." ++ nl ++ nl ++
  "Would you be open to a quick 15-minute call next week to explore if this could help " ++ company ++ "? " ++ nl ++ nl ++
  "I'd love to share some specific ideas based on what I've seen work for companies in your space." ++ nl ++ nl ++
  "Best regards," ++ nl ++ "SDR Team" ++ nl ++ "Analytos.ai" ++ nl ++ nl ++
  "P.S. No pressure - if the timing isn't right, I completely understand. Just let me know!".

(** [contact_name.split()[0] if contact_name else "there"] *)
Definition first_name_of (contact_name : value) : exc + string :=
  if truthy contact_name then
    match contact_name with
    | VStr s => match py_split_ws s with
                | w :: _ => inr w
                | [] => inl "IndexError: list index out of range"
                end
    | _ => inl "AttributeError: object has no attribute 'split'"
    end
  else inr "there".

(** [_generate_email_template] (lines 209-249). *)
Definition generate_email_template (lead : dict) : exc + dict :=
  let company := dict_get_default "company" (VStr "your company") lead in
  let contact_name := dict_get_default "contact_name" (VStr "there") lead in
  first_name <-? first_name_of contact_name ;;
  let title := dict_get_default "title" (VStr "") lead in
  let signal := dict_get_default "signal" (VStr "") lead in
  let email := dict_get_default "email" (VStr "") lead in
  let subject :=
    if eq_lit signal "recent_funding" then "Congrats on " ++ fmt company ++ "'s recent funding!"
    else if eq_lit signal "hiring_for_sales" then "Scaling " ++ fmt company ++ "'s sales team?"
    else "Quick idea for " ++ fmt company in
  let body := create_email_body_template first_name (fmt company) (fmt title) signal in
  inr [("lead", company); ("email", email); ("contact_name", contact_name);
       ("subject", VStr subject); ("email_body", VStr body); ("generated_by", VStr "template")].

Fixpoint generate_all (h : heap) (leads : list value) : exc + list dict :=
  match leads with
  | [] => inr []
  | lead :: rest =>
      d <-? deref h lead ;;
      m <-? generate_email_template d ;;
      ms <-? generate_all h rest ;;
      inr (m :: ms)
  end.

(** What [OutreachContentAgent.run] does after its two early returns
    (lines 77-113), in template mode; leads are dicts, inline or in the heap
    [h]. A string [ranked_leads] is sliced by characters, and a character has
    no [get]. *)
Definition outreach_template_body (h : heap) (inputs : dict) : exc + dict :=
  let ranked_leads := dict_get_default "ranked_leads" (VList []) inputs in
  n <-? slice_index (dict_get_default "top_n" (VNum 10) inputs) ;;
  match ranked_leads with
  | VList ls =>
      messages <-? generate_all h (py_slice_upto ls n) ;;
      inr [("messages", VList (map VObj messages))]
  | VStr s =>
      match py_slice_upto (utf8_chars (list_ascii_of_string s)) n with
      | [] => inr [("messages", VList [])]
      | _ => inl "AttributeError: 'str' object has no attribute 'get'"
      end
  | VObj _ => inl "TypeError: unhashable type: 'slice'"
  | _ => inl "TypeError: object is not subscriptable"
  end.

(** *** FeedbackTrainerAgent (feedback_trainer_agent.py, lines 56-191) *)










End Formatting.

(** *** Helpers for the properties below *)


(** The condition [_filter_by_icp] keeps a company on, for numeric bounds
    ([max_employees] [None] when absent) and a list of signals. *)
Definition icp_match (min_employees : Q) (max_employees : option Q) (signals : list value)
    (company : dict) : bool :=
  match num_of_value (dict_get_default "employee_count" (VNum 0) company) with
  | inr e =>
      (num_le (num_of_lit min_employees) e &&
       match max_employees with Some m => num_le e (num_of_lit m) | None => true end &&
       match signals with
       | [] => true
       | _ => existsb (py_eq (dict_get_default "signal" (VStr "") company)) signals
       end)%bool
  | inl _ => false
  end.

(** The order [sorted(..., reverse=True)] leaves scored copies in: higher
    score first, and for equal scores the earlier copy first. *)
Definition score_then_loc (a b : loc * pynum) : Prop :=
  num_lt (snd b) (snd a) = true \/
  (num_le (snd a) (snd b) = true /\ num_le (snd b) (snd a) = true /\ (fst a < fst b)%nat).

(** Two leads with the same figures, hence the same score. *)
Definition scoring_tie_leads : list value :=
  [VObj [("company", VStr "Twin A"); ("revenue", VNum 60000000);
         ("employee_count", VNum 400); ("signal", VStr "recent_funding")];
   VObj [("company", VStr "Other"); ("revenue", VNum 250000000);
         ("employee_count", VNum 500); ("signal", VStr "recent_funding")];
   VObj [("company", VStr "Twin B"); ("revenue", VNum 60000000);
         ("employee_count", VNum 400); ("signal", VStr "recent_funding")]].

Definition scoring_tie_inputs : dict :=
  [("leads", VList scoring_tie_leads); ("scoring_criteria", VObj [])].

(** The state a chain of node functions starts from in the examples below. *)
Definition chain_witness_state : dict := [("step_count", VNum 0); ("errors", VList [])].

(** A node name [add_node] accepts when it is new: not a key of
    [WorkflowState], not reserved, without ['|'] or [':']. *)
Definition node_name_valid (name : string) : Prop :=
  ~ In name state_keys /\ name <> "__end__"%string /\ name <> "__start__"%string /\
  has_char "|"%char name = false /\ has_char ":"%char name = false.

(** Channel contents hold only keys of [WorkflowState]. *)
Definition chans_ok (chans : dict) : Prop :=
  forall k, existsb (String.eqb k) state_keys = false -> dict_get k chans = None.


(** * Properties *)

(** ** Placeholder resolution *)

Example extract_state_key_leads :
  extract_state_key "{{prospect_search.output.leads}}" = "leads".
Proof. reflexivity. Qed.

Example extract_state_key_short :
  extract_state_key "{{ a.b }}" = "b".
Proof. reflexivity. Qed.

Example prepare_whole :
  prepare_inputs_from_state [("x", VStr "{{a.output.b}}")] [("b", VNum 42)]
  = ([("x", VNum 42)], []).
Proof. reflexivity. Qed.

(** ** Lemmas on dictionaries and on the resolver *)

Lemma dict_get_set (k k' : string) (v : value) (d : dict) :
  dict_get k (dict_set k' v d) = if String.eqb k k' then Some v else dict_get k d.
Proof.
  induction d as [|[k0 v0] d IH]; simpl.
  - reflexivity.
  - destruct (String.eqb k' k0) eqn:E1; simpl.
    + apply String.eqb_eq in E1; subst k0.
      destruct (String.eqb k k'); reflexivity.
    + rewrite IH. destruct (String.eqb k k0) eqn:E2.
      * apply String.eqb_eq in E2; subst k0.
        destruct (String.eqb k k') eqn:E3; [|reflexivity].
        apply String.eqb_eq in E3; subst k'.
        rewrite String.eqb_refl in E1; discriminate.
      * reflexivity.
Qed.

Lemma dict_get_None_notin (k : string) (d : dict) :
  ~ In k (map fst d) -> dict_get k d = None.
Proof.
  induction d as [|[k0 v0] d IH]; simpl; intros H; [reflexivity|].
  destruct (String.eqb k k0) eqn:E.
  - apply String.eqb_eq in E; subst; exfalso; apply H; left; reflexivity.
  - apply IH; intros Hin; apply H; right; exact Hin.
Qed.

Lemma resolve_one_whole (s : string) (state : dict) :
  startswith s "{{" = true -> endswith s "}}" = true ->
  resolve_one (VStr s) state
  = match dict_get (extract_state_key s) state with Some v => v | None => VStr s end.
Proof. intros H1 H2. simpl. rewrite H1, H2. reflexivity. Qed.

Lemma prepare_inputs_aux_step (key : string) (v : value) (rest state acc : dict) (w : list string) :
  fst (prepare_inputs_aux ((key, v) :: rest) state acc w)
  = fst (prepare_inputs_aux rest state (dict_set key (resolve_one v state) acc)
           (snd (prepare_inputs_aux [(key, v)] state acc w))).
Proof.
  destruct v; simpl; try reflexivity.
  destruct (startswith s "{{" && endswith s "}}")%bool; [|reflexivity].
  destruct (dict_get (extract_state_key s) state); reflexivity.
Qed.

Lemma prepare_inputs_aux_get (cfg state acc : dict) (w : list string) (key : string) :
  NoDup (map fst cfg) ->
  dict_get key (fst (prepare_inputs_aux cfg state acc w))
  = match dict_get key cfg with
    | Some v => Some (resolve_one v state)
    | None => dict_get key acc
    end.
Proof.
  revert acc w.
  induction cfg as [|[k0 v0] rest IH]; intros acc w Hnd; [reflexivity|].
  inversion Hnd as [|? ? Hnotin Hnd']; subst.
  rewrite prepare_inputs_aux_step, IH by exact Hnd'.
  simpl. rewrite dict_get_set.
  destruct (String.eqb key k0) eqn:E.
  - apply String.eqb_eq in E; subst k0.
    rewrite (dict_get_None_notin key rest Hnotin). reflexivity.
  - reflexivity.
Qed.

(** Warnings already logged are kept. *)
Lemma prepare_inputs_aux_warnings_mono (cfg state acc : dict) (w : list string) (x : string) :
  In x w -> In x (snd (prepare_inputs_aux cfg state acc w)).
Proof.
  revert acc w.
  induction cfg as [|[k0 v0] rest IH]; intros acc w Hin; simpl; [exact Hin|].
  destruct v0; try (apply IH; exact Hin).
  destruct (startswith s "{{" && endswith s "}}")%bool; [|apply IH; exact Hin].
  destruct (dict_get (extract_state_key s) state); apply IH; [exact Hin|].
  apply in_or_app; left; exact Hin.
Qed.

Lemma prepare_inputs_aux_warns (cfg state acc : dict) (w : list string) (key s : string) :
  dict_get key cfg = Some (VStr s) ->
  startswith s "{{" = true -> endswith s "}}" = true ->
  dict_get (extract_state_key s) state = None ->
  In (state_key_warning (extract_state_key s)) (snd (prepare_inputs_aux cfg state acc w)).
Proof.
  revert acc w.
  induction cfg as [|[k0 v0] rest IH]; intros acc w Hget Hpre Hsuf Hnone; simpl in *;
    [discriminate|].
  destruct (String.eqb key k0) eqn:E.
  - injection Hget as ->. rewrite Hpre, Hsuf. simpl. rewrite Hnone.
    apply prepare_inputs_aux_warnings_mono, in_or_app; right; left; reflexivity.
  - destruct v0; try (apply IH; assumption).
    destruct (startswith s0 "{{" && endswith s0 "}}")%bool; [|apply IH; assumption].
    destruct (dict_get (extract_state_key s0) state); apply IH; assumption.
Qed.

Lemma split_chars_not_nil (sep : ascii) (s : list ascii) : split_chars sep s <> [].
Proof.
  destruct s as [|c s]; simpl; [discriminate|].
  destruct (Ascii.eqb c sep); [discriminate|].
  destruct (split_chars sep s); discriminate.
Qed.

(** ** Claims on placeholder resolution *)

(** C1 (as stated, refuted): a placeholder embedded in a larger string,
    ["prefix {{a.output.b}} suffix"], with the reference mapped to 42 (both in
    the flat state under ["b"] and nested under ["a"]["output"]["b"]), is not
    turned into ["prefix 42 suffix"]. *)
Lemma C1_embedded_placeholder_counterexample :
  fst (prepare_inputs_from_state
         [("text", VStr "prefix {{a.output.b}} suffix")]
         [("b", VNum 42); ("a", VObj [("output", VObj [("b", VNum 42)])])])
  <> [("text", VStr "prefix 42 suffix")].
Proof. vm_compute. congruence. Qed.

(** C1 (amended): a string input value that does not both start with ["{{"]
    and end with ["}}"], such as ["prefix {{a.output.b}} suffix"], is passed
    through unchanged: no placeholder embedded in a larger string is
    substituted. *)
Theorem C1_non_whole_string_passes_through
    (cfg state : dict) (key s : string) :
  NoDup (map fst cfg) ->
  dict_get key cfg = Some (VStr s) ->
  (startswith s "{{" && endswith s "}}")%bool = false ->
  dict_get key (fst (prepare_inputs_from_state cfg state)) = Some (VStr s).
Proof.
  intros Hnd Hget Hnot. unfold prepare_inputs_from_state.
  rewrite prepare_inputs_aux_get by exact Hnd. rewrite Hget. simpl.
  rewrite Hnot. reflexivity.
Qed.

Lemma C1_non_whole_string_passes_through_witness :
  dict_get "text"
    (fst (prepare_inputs_from_state [("text", VStr "prefix {{a.output.b}} suffix")]
            [("b", VNum 42)]))
  = Some (VStr "prefix {{a.output.b}} suffix").
Proof.
  apply (C1_non_whole_string_passes_through
           [("text", VStr "prefix {{a.output.b}} suffix")] [("b", VNum 42)]
           "text" "prefix {{a.output.b}} suffix").
  - simpl. constructor; [simpl; tauto | constructor].
  - reflexivity.
  - reflexivity.
Defined.

(** C4: [extract_state_key] strips the braces and then the surrounding
    whitespace (Python's [str.strip()], Unicode whitespace included), splits the reference on dots (always at least one segment), and returns
    the third segment when there are at least three segments and the second
    is ["output"]; otherwise it returns the last segment. *)
Theorem C4_extract_state_key_shape (placeholder : string) :
  let parts := split_dot (py_strip (strip_by is_brace placeholder)) in
  parts <> [] /\
  ((3 <= List.length parts)%nat /\ nth 1 parts "" = "output" ->
     extract_state_key placeholder = nth 2 parts "") /\
  (~ ((3 <= List.length parts)%nat /\ nth 1 parts "" = "output") ->
     extract_state_key placeholder = last parts "").
Proof.
  intros parts. unfold extract_state_key. fold parts.
  split; [|split].
  - unfold parts, split_dot. intros H. apply map_eq_nil in H.
    exact (split_chars_not_nil _ _ H).
  - intros [Hlen Hout]. apply Nat.leb_le in Hlen. rewrite Hlen, Hout. reflexivity.
  - intros Hn. destruct ((3 <=? List.length parts)%nat) eqn:Hlen; [|reflexivity].
    destruct (String.eqb (nth 1 parts "") "output") eqn:Hout; [|reflexivity].
    exfalso. apply Hn. split; [apply Nat.leb_le; exact Hlen | apply String.eqb_eq; exact Hout].
Qed.

Lemma C4_extract_state_key_shape_witness :
  extract_state_key "{{ prospect_search.output.leads }}" = "leads" /\
  extract_state_key "{{config.max_leads}}" = "max_leads" /\
  extract_state_key nbsp_placeholder = "b".
Proof.
  split; [|split].
  - apply (proj1 (proj2 (C4_extract_state_key_shape "{{ prospect_search.output.leads }}"))).
    split; vm_compute; reflexivity.
  - apply (proj2 (proj2 (C4_extract_state_key_shape "{{config.max_leads}}"))).
    vm_compute. intros [H _]. inversion H. inversion H1. inversion H3.
  - apply (proj1 (proj2 (C4_extract_state_key_shape nbsp_placeholder))).
    split; vm_compute; reflexivity.
Defined.

(** C7: an input value that is exactly ["{{missing.output.x}}"], resolved
    against a state with no entry for its state key ["x"] (the empty state
    among them), is kept as the literal text, and the warning
    ["State key 'x' not found in state"] is logged; the resolver is total, so
    no exception is raised. *)
Theorem C7_unresolved_placeholder_kept (cfg state : dict) (key : string) :
  NoDup (map fst cfg) ->
  dict_get key cfg = Some (VStr "{{missing.output.x}}") ->
  dict_get "x" state = None ->
  dict_get key (fst (prepare_inputs_from_state cfg state))
    = Some (VStr "{{missing.output.x}}") /\
  In (state_key_warning "x") (snd (prepare_inputs_from_state cfg state)).
Proof.
  intros Hnd Hget Hnone. split.
  - unfold prepare_inputs_from_state.
    rewrite prepare_inputs_aux_get by exact Hnd. rewrite Hget.
    rewrite resolve_one_whole by reflexivity.
    replace (extract_state_key "{{missing.output.x}}") with "x" by reflexivity.
    rewrite Hnone. reflexivity.
  - apply (prepare_inputs_aux_warns cfg state [] [] key "{{missing.output.x}}");
      [exact Hget | reflexivity | reflexivity | exact Hnone].
Qed.

Lemma C7_unresolved_placeholder_kept_witness :
  dict_get "target" (fst (prepare_inputs_from_state [("target", VStr "{{missing.output.x}}")] []))
    = Some (VStr "{{missing.output.x}}") /\
  In (state_key_warning "x")
     (snd (prepare_inputs_from_state [("target", VStr "{{missing.output.x}}")] [])).
Proof.
  apply (C7_unresolved_placeholder_kept [("target", VStr "{{missing.output.x}}")] [] "target").
  - simpl. constructor; [simpl; tauto | constructor].
  - reflexivity.
  - reflexivity.
Defined.

(** C8: an input value that is exactly ["{{a.output.b}}"] whose referenced
    value X is present in the state (under the state key ["b"] that
    [extract_state_key] derives) resolves to X itself, whatever X is (list,
    number, mapping, ...), not to a string. *)
Theorem C8_whole_placeholder_native_value (cfg state : dict) (key : string) (X : value) :
  NoDup (map fst cfg) ->
  dict_get key cfg = Some (VStr "{{a.output.b}}") ->
  dict_get "b" state = Some X ->
  dict_get key (fst (prepare_inputs_from_state cfg state)) = Some X.
Proof.
  intros Hnd Hget Hx. unfold prepare_inputs_from_state.
  rewrite prepare_inputs_aux_get by exact Hnd. rewrite Hget.
  rewrite resolve_one_whole by reflexivity.
  replace (extract_state_key "{{a.output.b}}") with "b" by reflexivity.
  rewrite Hx. reflexivity.
Qed.

Lemma C8_whole_placeholder_native_value_witness :
  dict_get "leads"
    (fst (prepare_inputs_from_state [("leads", VStr "{{a.output.b}}")]
            [("b", VList [VNum 1; VNum 2])]))
  = Some (VList [VNum 1; VNum 2]).
Proof.
  apply (C8_whole_placeholder_native_value [("leads", VStr "{{a.output.b}}")]
           [("b", VList [VNum 1; VNum 2])] "leads").
  - simpl. constructor; [simpl; tauto | constructor].
  - reflexivity.
  - reflexivity.
Defined.

(** ** Orchestration *)

Example demo_build :
  build_langgraph demo_registry demo_workflow_dict = inr [demo_node1; demo_node2; demo_node3].
Proof. reflexivity. Qed.

Lemma assoc_str_output_mapping_value (k t : string) :
  assoc_str k output_mapping = Some t -> in_mapping_values t = true.
Proof.
  unfold assoc_str, output_mapping.
  repeat match goal with
         | |- context [String.eqb k ?x] => destruct (String.eqb k x)
         end; intros H; try discriminate; injection H as <-; reflexivity.
Qed.

Lemma update_state_aux_other (output state : dict) (step_id k : string) :
  in_mapping_values k = false ->
  dict_get k (update_state_aux state step_id output) = dict_get k state.
Proof.
  revert state. induction output as [|[key v] rest IH]; intros state Hk; [reflexivity|].
  cbn [update_state_aux]. rewrite IH by exact Hk.
  destruct (in_mapping_values key) eqn:Hkey.
  - rewrite dict_get_set. destruct (String.eqb k key) eqn:E; [|reflexivity].
    apply String.eqb_eq in E; subst; congruence.
  - destruct (assoc_str step_id output_mapping) as [t|] eqn:Ht; [|reflexivity].
    apply assoc_str_output_mapping_value in Ht.
    rewrite dict_get_set. destruct (String.eqb k t) eqn:E; [|reflexivity].
    apply String.eqb_eq in E; subst; congruence.
Qed.

(** C3 (code defect): after a step completes, [update_state_with_output]
    leaves the entry under the step's id as it was: for any step id that is
    not one of the seven state keys it writes ([leads], [ranked_leads], ...),
    [state[step_id]] is never set, so in particular never becomes
    [{"output": output}], although the source's comment says the raw output
    is also stored under the step id. *)
Theorem C3_step_output_not_stored_under_step_id (state output : dict) (step_id : string) :
  in_mapping_values step_id = false ->
  dict_get step_id (update_state_with_output state step_id output) = dict_get step_id state.
Proof. apply update_state_aux_other. Qed.

Lemma C3_step_output_not_stored_under_step_id_witness :
  dict_get "prospect_search"
    (update_state_with_output [("step_count", VNum 0); ("errors", VList [])]
       "prospect_search" [("leads", VList [])]) = None.
Proof.
  exact (C3_step_output_not_stored_under_step_id
           [("step_count", VNum 0); ("errors", VList [])] [("leads", VList [])]
           "prospect_search" eq_refl).
Defined.

(** C2 (as stated, refuted): in the demo three-step workflow
    ([continue_on_error] false) whose second handler raises, step 3 is not
    entered, but the report's status is ["failed"], not ["partial_failure"],
    and the report holds no per-step results: only the workflow name, the
    status and the error message. *)
Lemma C2_step2_raises_counterexample :
  main demo_registry (inr demo_workflow)
  = (["prospect_search"; "scoring"],
     inr [("workflow_name", VStr "demo"); ("status", VStr "failed");
          ("error", VStr "scoring failed")]).
Proof. vm_compute. reflexivity. Qed.

(** C2 (amended): in a three-step linear graph where step 1 completes and
    step 2's handler raises [e], step 3 is never entered and the run's report
    is exactly [{"workflow_name": ..., "status": "failed", "error": str(e')}]:
    no per-step results, whatever [error_handling.continue_on_error] says
    (the code never reads it). [e'] is [e], unless the state's ["errors"]
    holds something other than a list: then appending to it raises the
    [AttributeError] [e'] instead. The state step 2 receives is the state
    channels after the input and step 1's output were written. *)
Theorem C2_step2_raise_stops_run (n1 n2 n3 : node) (wf st0 out1 cfg2 : dict)
    (wn : value) (e : exc) :
  initial_state_of wf = inr st0 ->
  node_function n1 (write_channels [] st0) = inr out1 ->
  dict_get "inputs" (node_step n2) = Some (VObj cfg2) ->
  node_agent n2
    (fst (prepare_inputs_from_state cfg2 (write_channels (write_channels [] st0) out1))) = inl e ->
  dict_get "workflow_name" wf = Some wn ->
  execute_langgraph [n1; n2; n3] wf
  = ([node_id n1; node_id n2],
     inr [("workflow_name", wn); ("status", VStr "failed");
          ("error", VStr (exc_message (node_error (write_channels (write_channels [] st0) out1) e)))]).
Proof.
  intros Hinit H1 Hin2 H2 Hwn.
  unfold execute_langgraph. rewrite Hinit.
  unfold invoke_chain. change recursion_limit with (S (S (S 22))).
  cbn [run_chain]. rewrite H1.
  unfold node_function at 1. rewrite Hin2, H2.
  unfold failed_report, workflow_name_of. rewrite Hwn. reflexivity.
Qed.

Lemma C2_step2_raise_stops_run_witness :
  execute_langgraph [demo_node1; demo_node2; demo_node3] demo_workflow_dict
  = (["prospect_search"; "scoring"],
     inr [("workflow_name", VStr "demo"); ("status", VStr "failed");
          ("error", VStr "scoring failed")]).
Proof.
  rewrite (C2_step2_raise_stops_run demo_node1 demo_node2 demo_node3 demo_workflow_dict
             demo_state0 demo_output1 demo_inputs2 (VStr "demo") "RuntimeError: scoring failed")
    by (vm_compute; reflexivity).
  vm_compute. reflexivity.
Defined.

(** ** Validation *)

Lemma step_well_formed_first_missing (d : dict) :
  first_missing required_step_fields d = None <-> step_well_formed (VObj d) = true.
Proof.
  unfold first_missing, required_step_fields, step_well_formed.
  destruct (dict_mem "id" d), (dict_mem "agent" d), (dict_mem "inputs" d),
    (dict_mem "instructions" d); simpl; split; congruence.
Qed.

Lemma validate_steps_spec (steps : list value) :
  (forallb step_well_formed steps = true /\ validate_steps steps = inr true) \/
  (forallb step_well_formed steps = false /\ exists e, validate_steps steps = inl e).
Proof.
  induction steps as [|step rest IH]; [left; split; reflexivity|].
  destruct step as [| | | | | |d|];
    try (right; split; [reflexivity | eexists; reflexivity]).
  change (validate_steps (VObj d :: rest))
    with (match first_missing required_step_fields d with
          | Some f => inl ("ValueError: Step missing field: " ++ f)
          | None => validate_steps rest
          end).
  change (forallb step_well_formed (VObj d :: rest))
    with (step_well_formed (VObj d) && forallb step_well_formed rest)%bool.
  destruct (first_missing required_step_fields d) as [f|] eqn:Hf.
  - right. split; [|eexists; reflexivity].
    destruct (step_well_formed (VObj d)) eqn:Hw; [|reflexivity].
    apply step_well_formed_first_missing in Hw. congruence.
  - assert (Hw : step_well_formed (VObj d) = true)
      by (apply step_well_formed_first_missing; exact Hf).
    rewrite Hw. exact IH.
Qed.

Lemma validate_workflow_spec (w : value) :
  (workflow_well_formed w = true /\ validate_workflow w = inr true) \/
  (workflow_well_formed w = false /\ exists e, validate_workflow w = inl e).
Proof.
  destruct w as [| | | | | |wf|];
    try (right; split; [reflexivity | eexists; reflexivity]).
  unfold workflow_well_formed, validate_workflow. cbn [first_missing]. unfold dict_mem.
  destruct (dict_get "workflow_name" wf) as [wn|] eqn:Hn;
    [|right; split; [reflexivity | eexists; reflexivity]].
  destruct (dict_get "steps" wf) as [v|] eqn:Hs;
    [|right; split; [reflexivity | eexists; reflexivity]].
  destruct v as [| | | | |steps| |];
    try (right; split; [reflexivity | eexists; reflexivity]).
  destruct steps as [|s1 rest]; [right; split; [reflexivity | eexists; reflexivity]|].
  cbn [andb negb List.length Nat.eqb].
  destruct (validate_steps_spec (s1 :: rest)) as [[Hf Hv]|[Hf [e Hv]]]; rewrite Hf;
    [left; split; [reflexivity | exact Hv] | right; split; [reflexivity | eauto]].
Qed.

Lemma validate_workflow_result (w : value) (b : bool) :
  validate_workflow w = inr b -> b = true /\ workflow_well_formed w = true.
Proof.
  intros H. destruct (validate_workflow_spec w) as [[Hw Hv]|[Hw [e Hv]]]; split; congruence.
Qed.

(** C6: [validate_workflow] returns [True] exactly on well-formed workflows.
    On a malformed one ([workflow_name] or [steps] missing, [steps] not a
    non-empty list, a step missing [id], [agent], [inputs] or
    [instructions], or not a mapping at all) it raises, and [main] then
    re-raises that error before any node is entered (no handler invoked) and
    without producing a report. *)
Theorem C6_validation_fails_fast (w : value) :
  (workflow_well_formed w = true -> validate_workflow w = inr true) /\
  (workflow_well_formed w = false ->
     exists e, validate_workflow w = inl e /\
               forall reg : registry, main reg (inr w) = ([], inl e)).
Proof.
  destruct (validate_workflow_spec w) as [[Hw Hv]|[Hw [e Hv]]]; split; intros H;
    try congruence.
  exists e. split; [exact Hv|]. intros reg. simpl. rewrite Hv. reflexivity.
Qed.

Lemma C6_validation_fails_fast_witness :
  validate_workflow demo_workflow = inr true /\
  (exists e, validate_workflow (VObj [("workflow_name", VStr "w")]) = inl e /\
             forall reg : registry, main reg (inr (VObj [("workflow_name", VStr "w")])) = ([], inl e)).
Proof.
  split.
  - apply (proj1 (C6_validation_fails_fast demo_workflow)). vm_compute. reflexivity.
  - apply (proj2 (C6_validation_fails_fast (VObj [("workflow_name", VStr "w")]))).
    vm_compute. reflexivity.
Defined.

(** ** Reports *)

Lemma well_formed_first_step (wf : dict) :
  workflow_well_formed (VObj wf) = true ->
  exists wn s1 rest, dict_get "workflow_name" wf = Some wn /\
                     dict_get "steps" wf = Some (VList (VObj s1 :: rest)).
Proof.
  unfold workflow_well_formed, dict_mem.
  destruct (dict_get "workflow_name" wf) as [wn|]; [|discriminate].
  destruct (dict_get "steps" wf) as [[| | | | |steps| |]|]; try discriminate.
  destruct steps as [|[| | | | | |s1|] rest]; simpl; try discriminate.
  intros _. exists wn, s1, rest. split; reflexivity.
Qed.

Lemma build_report_status (wf final rep : dict) :
  build_report wf final = inr rep ->
  exists st, dict_get "status" rep = Some (VStr st) /\
             In st ["completed"; "partial_failure"; "failed"].
Proof.
  unfold build_report, bind.
  destruct (workflow_name_of wf); [discriminate|].
  destruct (py_len (dict_get_default "errors" (VList []) final)) as [|nerr]; [discriminate|].
  destruct (py_len (dict_get_default "leads" (VList []) final)); [discriminate|].
  destruct (py_len (dict_get_default "ranked_leads" (VList []) final)); [discriminate|].
  destruct (py_len (dict_get_default "messages" (VList []) final)); [discriminate|].
  destruct (py_len (dict_get_default "recommendations" (VList []) final)); [discriminate|].
  intros H. injection H as <-. simpl.
  eexists. split; [reflexivity|]. destruct (Nat.eqb nerr 0); simpl; tauto.
Qed.

Lemma failed_report_status (wf : dict) (wn : value) (e : exc) :
  dict_get "workflow_name" wf = Some wn ->
  failed_report wf e
  = inr [("workflow_name", wn); ("status", VStr "failed"); ("error", VStr (exc_message e))].
Proof. intros H. unfold failed_report, workflow_name_of. rewrite H. reflexivity. Qed.

(** C5 (as stated, refuted): no report is produced when validation fails
    ([main] re-raises), nor when a validated workflow's first step has
    [inputs] that is not a mapping ([execute_langgraph] raises before its
    [try]). *)
Lemma C5_no_report_counterexample :
  main demo_registry (inr no_steps_workflow)
    = ([], inl "ValueError: Missing required field: steps") /\
  main demo_registry (inr list_inputs_workflow)
    = ([], inl "AttributeError: object has no attribute 'items'").
Proof. split; vm_compute; reflexivity. Qed.

(** C5 (amended): a run whose workflow validates, whose graph builds (the
    agent classes load, the step ids are distinct strings that LangGraph
    accepts as node names) and whose first step's [inputs] is a mapping
    always ends in a report, also when a node raises and the run stops
    early; its status is ["completed"], ["partial_failure"] or ["failed"]. A
    workflow that fails to load, to validate or to build yields no report:
    [main] re-raises the error before any node is entered, an outcome
    distinct from every report. *)
Theorem C5_report_or_reraise (reg : registry) :
  (forall (wf : dict) (ns : list node),
     validate_workflow (VObj wf) = inr true ->
     build_langgraph reg wf = inr ns ->
     (forall s1 rest, dict_get "steps" wf = Some (VList (VObj s1 :: rest)) ->
        exists cfg, dict_get "inputs" s1 = Some (VObj cfg)) ->
     exists rep st, snd (main reg (inr (VObj wf))) = inr rep /\
       dict_get "status" rep = Some (VStr st) /\
       In st ["completed"; "partial_failure"; "failed"]) /\
  (forall e : exc, main reg (inl e) = ([], inl e)) /\
  (forall (w : value) (e : exc), validate_workflow w = inl e -> main reg (inr w) = ([], inl e)) /\
  (forall (wf : dict) (e : exc), validate_workflow (VObj wf) = inr true ->
     build_langgraph reg wf = inl e -> main reg (inr (VObj wf)) = ([], inl e)).
Proof.
  split; [|split; [|split]].
  - intros wf ns Hv Hb Hin.
    destruct (validate_workflow_result _ _ Hv) as [_ Hw].
    destruct (well_formed_first_step wf Hw) as (wn & s1 & rest & Hwn & Hs).
    destruct (Hin s1 rest Hs) as [cfg Hcfg].
    unfold main. rewrite Hv, Hb. unfold execute_langgraph, initial_state_of.
    rewrite Hs, Hcfg.
    destruct (invoke_chain ns _) as [trace [e|final]]; simpl snd.
    + rewrite (failed_report_status wf wn e Hwn).
      exists [("workflow_name", wn); ("status", VStr "failed"); ("error", VStr (exc_message e))], "failed".
      simpl. split; [reflexivity|]. split; [reflexivity|]. tauto.
    + destruct (build_report wf final) as [e|rep] eqn:Hbr.
      * rewrite (failed_report_status wf wn e Hwn).
        exists [("workflow_name", wn); ("status", VStr "failed"); ("error", VStr (exc_message e))], "failed".
        simpl. split; [reflexivity|]. split; [reflexivity|]. tauto.
      * destruct (build_report_status wf final rep Hbr) as [st [Hst Hin']].
        exists rep, st. split; [reflexivity|]. split; assumption.
  - intros e. reflexivity.
  - intros w e Hv. simpl. rewrite Hv. reflexivity.
  - intros wf e Hv Hb. unfold main. rewrite Hv, Hb. reflexivity.
Qed.

Lemma C5_report_or_reraise_witness :
  exists rep st, snd (main demo_registry (inr demo_workflow)) = inr rep /\
    dict_get "status" rep = Some (VStr st) /\
    In st ["completed"; "partial_failure"; "failed"].
Proof.
  apply (proj1 (C5_report_or_reraise demo_registry) demo_workflow_dict
           [demo_node1; demo_node2; demo_node3]).
  - vm_compute. reflexivity.
  - vm_compute. reflexivity.
  - intros s1 rest H. vm_compute in H. injection H as <- _.
    eexists. vm_compute. reflexivity.
Defined.

(** ** Agents *)

Lemma validate_inputs_missing (inputs : dict) (fields : list string) :
  Exists (fun f => dict_mem f inputs = false) fields ->
  validate_inputs inputs fields = false.
Proof.
  unfold validate_inputs. induction 1 as [f fs Hf|f fs _ IH]; simpl.
  - rewrite Hf. reflexivity.
  - rewrite IH. apply andb_false_r.
Qed.

(** C9: each agent's [run], given inputs missing one of its required keys,
    returns its empty (or failed) result mapping and raises nothing:
    ScoringAgent [{"ranked_leads": []}] (writing no object),
    ProspectSearchAgent [{"leads": []}], OutreachContentAgent
    [{"messages": []}], FeedbackTrainerAgent
    [{"recommendations": [], "status": "failed"}]. *)
Theorem C9_missing_required_key_no_exception
    (search generate analyse : dict -> exc + dict) (h : heap) (inputs : dict) :
  (dict_mem "leads" inputs = false ->
     ScoringAgent_run h inputs = (h, inr [("ranked_leads", VList [])])) /\
  (Exists (fun f => dict_mem f inputs = false)
          ["industry"; "location"; "employee_count"; "signals"] ->
     ProspectSearchAgent_run search inputs = inr [("leads", VList [])]) /\
  (dict_mem "ranked_leads" inputs = false ->
     OutreachContentAgent_run generate inputs = inr [("messages", VList [])]) /\
  (dict_mem "responses" inputs = false ->
     FeedbackTrainerAgent_run analyse inputs
     = inr [("recommendations", VList []); ("status", VStr "failed")]).
Proof.
  split; [|split; [|split]]; intros H.
  - unfold ScoringAgent_run.
    rewrite (validate_inputs_missing inputs ["leads"] (Exists_cons_hd _ _ _ H)).
    reflexivity.
  - unfold ProspectSearchAgent_run. rewrite (validate_inputs_missing _ _ H). reflexivity.
  - unfold OutreachContentAgent_run.
    rewrite (validate_inputs_missing inputs ["ranked_leads"] (Exists_cons_hd _ _ _ H)).
    reflexivity.
  - unfold FeedbackTrainerAgent_run.
    rewrite (validate_inputs_missing inputs ["responses"] (Exists_cons_hd _ _ _ H)).
    reflexivity.
Qed.

Lemma C9_missing_required_key_no_exception_witness :
  ScoringAgent_run [] [("scoring_criteria", VObj [])] = ([], inr [("ranked_leads", VList [])]) /\
  ProspectSearchAgent_run (fun _ => inl "unreached") [("industry", VStr "SaaS")]
    = inr [("leads", VList [])] /\
  OutreachContentAgent_run (fun _ => inl "unreached") [] = inr [("messages", VList [])] /\
  FeedbackTrainerAgent_run (fun _ => inl "unreached") [("campaign_metrics", VObj [])]
    = inr [("recommendations", VList []); ("status", VStr "failed")].
Proof.
  pose proof (C9_missing_required_key_no_exception
                (fun _ => inl "unreached") (fun _ => inl "unreached") (fun _ => inl "unreached")
                [] [("scoring_criteria", VObj [])]) as [HS _].
  pose proof (C9_missing_required_key_no_exception
                (fun _ => inl "unreached") (fun _ => inl "unreached") (fun _ => inl "unreached")
                [] [("industry", VStr "SaaS")]) as [_ [HP _]].
  pose proof (C9_missing_required_key_no_exception
                (fun _ => inl "unreached") (fun _ => inl "unreached") (fun _ => inl "unreached")
                [] []) as [_ [_ [HO _]]].
  pose proof (C9_missing_required_key_no_exception
                (fun _ => inl "unreached") (fun _ => inl "unreached") (fun _ => inl "unreached")
                [] [("campaign_metrics", VObj [])]) as [_ [_ [_ HF]]].
  split; [apply HS; reflexivity|].
  split; [apply HP; apply Exists_cons_tl, Exists_cons_hd; reflexivity|].
  split; [apply HO; reflexivity | apply HF; reflexivity].
Defined.

(** ** ScoringAgent: sorting, rankings and copies *)

Lemma Qlt_bool_false (a b : Q) : Qlt_bool a b = false -> b <= a.
Proof.
  unfold Qlt_bool. destruct (Qle_bool b a) eqn:E; simpl; [|discriminate].
  intros _. apply Qle_bool_iff. exact E.
Qed.




Lemma num_lt_false_le (a b : pynum) :
  num_ext a <> None -> num_ext b <> None -> num_lt a b = false -> num_le b a = true.
Proof.
  unfold num_lt, num_le. destruct (num_ext a), (num_ext b); try congruence.
  intros _ _ H. rewrite H. reflexivity.
Qed.

Lemma num_le_ext (a b : pynum) : num_le a b = true -> num_ext a <> None.
Proof. unfold num_le. destruct (num_ext a); intros H; [discriminate | discriminate H]. Qed.

Lemma num_le_100_iff (p : pynum) (x : Q) :
  num_ext p = Some (EFin x) -> (num_le p (PInt 100) = true <-> x <= 100).
Proof.
  intros H. unfold num_le. rewrite H. cbn [num_ext ext_lt]. unfold Qlt_bool.
  rewrite negb_involutive. apply Qle_bool_iff.
Qed.

Lemma num_of_value_of_num (p : pynum) : num_of_value (value_of_num p) = inr p.
Proof. destruct p; reflexivity. Qed.

(** A key the sort can order: not a NaN. *)
Definition key_ok (x : loc * pynum) : Prop := num_ext (snd x) <> None.

Lemma insert_desc_perm (x : loc * pynum) (l : list (loc * pynum)) :
  Permutation (x :: l) (insert_desc x l).
Proof.
  induction l as [|y l IH]; simpl; [reflexivity|].
  destruct (num_lt (snd y) (snd x)); [reflexivity|].
  transitivity (y :: x :: l); [apply perm_swap|]. apply perm_skip, IH.
Qed.


Lemma Forall_perm {A : Type} (P : A -> Prop) (l l' : list A) :
  Permutation l l' -> Forall P l -> Forall P l'.
Proof.
  intros Hp Hf. rewrite Forall_forall in *. intros x Hx.
  apply Hf. eapply Permutation_in; [symmetry; exact Hp | exact Hx].
Qed.

Lemma sort_desc_aux_perm (l acc : list (loc * pynum)) :
  Permutation (l ++ acc) (fold_left (fun acc x => insert_desc x acc) l acc).
Proof.
  revert acc. induction l as [|x l IH]; intros acc; simpl; [reflexivity|].
  rewrite <- IH. rewrite <- insert_desc_perm. apply Permutation_middle.
Qed.


Lemma sort_desc_perm (l : list (loc * pynum)) : Permutation l (sort_desc l).
Proof.
  unfold sort_desc. rewrite <- (app_nil_r l) at 1. apply sort_desc_aux_perm.
Qed.


Lemma heap_set_length (h : heap) (l : loc) (d : dict) :
  List.length (heap_set h l d) = List.length h.
Proof.
  revert l. induction h as [|d' h IH]; intros [|l]; simpl; auto.
Qed.

Lemma heap_set_same (h : heap) (l : loc) (d : dict) :
  (l < List.length h)%nat -> nth_error (heap_set h l d) l = Some d.
Proof.
  revert l. induction h as [|d' h IH]; intros [|l] Hl; simpl in *; try lia; auto.
  apply IH. lia.
Qed.

Lemma heap_set_other (h : heap) (l l' : loc) (d : dict) :
  l <> l' -> nth_error (heap_set h l d) l' = nth_error h l'.
Proof.
  revert l l'. induction h as [|d' h IH]; intros [|l] [|l'] Hne; simpl; auto; try congruence.
Qed.

Lemma set_rankings_spec (ranked : list loc) (h : heap) (i : nat) :
  NoDup ranked -> Forall (fun l => l < List.length h)%nat ranked ->
  List.length (set_rankings h ranked i) = List.length h /\
  (forall l, ~ In l ranked -> nth_error (set_rankings h ranked i) l = nth_error h l) /\
  (forall j l d, nth_error ranked j = Some l -> nth_error h l = Some d ->
     nth_error (set_rankings h ranked i) l
     = Some (dict_set "ranking" (VNum (Z.of_nat (i + j) # 1)) d)).
Proof.
  revert h i. induction ranked as [|l rest IH]; intros h i Hnd Hlt.
  - split; [reflexivity|]. split; [reflexivity|]. intros [|j] ? ? H; discriminate.
  - inversion Hnd as [|? ? Hnotin Hnd']; subst.
    inversion Hlt as [|? ? Hl Hlt']; subst.
    simpl. destruct (nth_error h l) as [d0|] eqn:Hd0;
      [|apply nth_error_None in Hd0; lia].
    set (h' := heap_set h l (dict_set "ranking" (VNum (Z.of_nat i # 1)) d0)).
    assert (Hlen' : List.length h' = List.length h) by apply heap_set_length.
    assert (Hlt'' : Forall (fun l => l < List.length h')%nat rest)
      by (rewrite Hlen'; exact Hlt').
    destruct (IH h' (S i) Hnd' Hlt'') as (IH1 & IH2 & IH3).
    split; [rewrite IH1; exact Hlen'|]. split.
    + intros l' Hn. rewrite IH2 by (intros Hin; apply Hn; right; exact Hin).
      apply heap_set_other. intros ->. apply Hn. left. reflexivity.
    + intros [|j] l' d Hj Hd; simpl in Hj.
      * injection Hj as <-. rewrite Hd in Hd0. injection Hd0 as ->.
        rewrite IH2 by exact Hnotin. rewrite Nat.add_0_r. apply heap_set_same. exact Hl.
      * assert (Hne : l <> l') by (intros ->; apply Hnotin; eapply nth_error_In; exact Hj).
        rewrite (IH3 j l' d Hj) by (unfold h'; rewrite heap_set_other by exact Hne; exact Hd).
        replace (S i + j)%nat with (i + S j)%nat by lia. reflexivity.
Qed.

(** *** [round(x, 2)] of a score at most 100 is at most 100 *)

Lemma round_half_even_le (y : Q) (n : Z) : y <= inject_Z n -> (round_half_even y <= n)%Z.
Proof.
  intros Hy. unfold round_half_even.
  set (f := Qfloor y).
  assert (Hf : inject_Z f <= y) by apply Qfloor_le.
  assert (Hfz : (f <= n)%Z).
  { pose proof (Qle_trans _ _ _ Hf Hy) as H. rewrite <- Zle_Qle in H. exact H. }
  destruct (Qlt_bool (y - inject_Z f) (1 # 2)) eqn:E1; [exact Hfz|].
  apply Qlt_bool_false in E1.
  assert (Hsum : inject_Z f + (1 # 2) <= inject_Z n).
  { apply Qle_trans with y; [|exact Hy].
    apply Qle_minus_iff. apply Qle_minus_iff in E1.
    setoid_replace (y + - (inject_Z f + (1 # 2))) with (y - inject_Z f + - (1 # 2)) by ring.
    exact E1. }
  unfold Qle, Qplus, inject_Z in Hsum. simpl in Hsum.
  destruct (Qlt_bool (1 # 2) (y - inject_Z f)); [|destruct (Z.even f)]; lia.
Qed.

Lemma Q_of_bits_neg (m : positive) (e : Z) : Q_of_bits true m e <= 0.
Proof.
  unfold Q_of_bits. destruct e as [|p|p]; unfold Qle, inject_Z; cbn [Qnum Qden].
  - lia.
  - assert (H : (0 < Z.pow_pos 2 p)%Z) by (change (Z.pow_pos 2 p) with (2 ^ Zpos p)%Z;
                                           apply Z.pow_pos_nonneg; lia).
    nia.
  - lia.
Qed.

(** The sign of a rounded result: a zero, or a number or infinity of the
    sign [s], never a NaN. *)
Definition float_sign_ok (s : bool) (f : spec_float) : Prop :=
  match f with
  | S754_zero _ => True
  | S754_finite s' _ _ | S754_infinity s' => s' = s
  | S754_nan => False
  end.

Lemma shr_1_nonneg (mrs : shr_record) : (0 <= shr_m mrs)%Z -> (0 <= shr_m (shr_1 mrs))%Z.
Proof. destruct mrs as [[|[p|p|]|[p|p|]] r s]; simpl; lia. Qed.

Lemma iter_shr_1_nonneg (p : positive) :
  forall mrs, (0 <= shr_m mrs)%Z -> (0 <= shr_m (iter_pos shr_1 p mrs))%Z.
Proof. induction p; intros mrs H; simpl; auto using shr_1_nonneg. Qed.

Lemma shr_fexp_nonneg (m e : Z) (l : location) :
  (0 <= m)%Z -> (0 <= shr_m (fst (shr_fexp prec64 emax64 m e l)))%Z.
Proof.
  intros Hm. unfold shr_fexp, shr.
  assert (H0 : (0 <= shr_m (shr_record_of_loc m l))%Z)
    by (destruct l as [|[| |]]; exact Hm).
  destruct (_ - _)%Z; simpl; auto using iter_shr_1_nonneg.
Qed.

Lemma binary_round_aux_sign (s : bool) (m e : Z) (l : location) :
  (0 <= m)%Z -> float_sign_ok s (binary_round_aux prec64 emax64 s m e l).
Proof.
  intros Hm. unfold binary_round_aux.
  pose proof (shr_fexp_nonneg m e l Hm) as H1.
  destruct (shr_fexp prec64 emax64 m e l) as [mrs' e'] eqn:E1. simpl in H1.
  assert (H2 : (0 <= round_nearest_even (shr_m mrs') (loc_of_shr_record mrs'))%Z).
  { unfold round_nearest_even.
    destruct (loc_of_shr_record mrs') as [|[| |]]; try destruct (Z.even _); lia. }
  pose proof (shr_fexp_nonneg _ e' loc_Exact H2) as H3.
  destruct (shr_fexp prec64 emax64 (round_nearest_even (shr_m mrs') (loc_of_shr_record mrs'))
              e' loc_Exact) as [mrs'' e''] eqn:E2.
  simpl in H3.
  destruct (shr_m mrs'') as [|m''|m'']; simpl; auto; try lia.
  destruct (e'' <=? _)%Z; reflexivity.
Qed.

Lemma SFdiv_core_binary_nonneg (m1 m2 : positive) (e1 e2 : Z) :
  (0 <= fst (fst (SFdiv_core_binary prec64 emax64 (Zpos m1) e1 (Zpos m2) e2)))%Z.
Proof.
  unfold SFdiv_core_binary. cbv zeta.
  match goal with |- context [Z.div_eucl ?a ?b] =>
    assert (Ha : (0 <= a)%Z); [|destruct (Z.div_eucl a b) as [q r] eqn:E;
                               assert (Hq : (a / b)%Z = q) by (unfold Z.div; rewrite E; reflexivity)]
  end.
  - destruct (_ - _ - _)%Z; [lia | apply Z.shiftl_nonneg; lia | lia].
  - simpl. rewrite <- Hq. apply Z.div_pos; lia.
Qed.

Lemma float_of_Q_neg_sign (p d : positive) : float_sign_ok true (float_of_Q (Zneg p # d)).
Proof.
  unfold float_of_Q. cbn [Qnum Qden exact_of_Z SFdiv xorb].
  pose proof (SFdiv_core_binary_nonneg p d 0 0) as H.
  destruct (SFdiv_core_binary prec64 emax64 (Zpos p) 0 (Zpos d) 0) as [[mz ez] lz].
  apply binary_round_aux_sign. exact H.
Qed.

Lemma num_le_nonpos_float (f : spec_float) :
  float_sign_ok true f -> num_le (PFloat f) (PInt 100) = true.
Proof.
  destruct f as [s|s| |s m e]; intros H; simpl in H; try contradiction; subst; try reflexivity.
  apply (num_le_100_iff (PFloat (S754_finite true m e)) (Q_of_bits true m e)); [reflexivity|].
  apply Qle_trans with 0; [apply Q_of_bits_neg | discriminate].
Qed.

(** The floats nearest to 0.01, 0.02, ..., 100.0 are at most 100. *)
Lemma hundredths_le_100 :
  forallb (fun n => num_le (PFloat (float_of_Q (Z.of_nat n # 100))) (PInt 100))
          (seq 1 (Z.to_nat 10000)) = true.
Proof. vm_compute. reflexivity. Qed.

Lemma num_round2_le_100 (p : pynum) :
  num_le p (PInt 100) = true -> num_le (num_round2 p) (PInt 100) = true.
Proof.
  destruct p as [z|[s|s| |s m e]]; intros H; try exact H.
  cbn [num_round2].
  assert (Hx : Q_of_bits s m e <= 100)
    by (apply (num_le_100_iff (PFloat (S754_finite s m e))); [reflexivity | exact H]).
  assert (Hk : (round_half_even (Q_of_bits s m e * 100) <= 10000)%Z).
  { apply round_half_even_le.
    apply Qle_trans with (100 * 100); [|apply Qle_refl].
    apply Qmult_le_compat_r; [exact Hx | discriminate]. }
  destruct (Z.eqb_spec (round_half_even (Q_of_bits s m e * 100)) 0) as [_|Hk0];
    [reflexivity|].
  destruct (round_half_even (Q_of_bits s m e * 100)) as [|k|k] eqn:Ek; [congruence| |].
  - pose proof hundredths_le_100 as Hall. rewrite forallb_forall in Hall.
    specialize (Hall (Pos.to_nat k)).
    rewrite positive_nat_Z in Hall. apply Hall. apply in_seq.
    rewrite <- positive_nat_Z in Hk. pose proof (Pos2Nat.is_pos k).
    rewrite Z2Nat.inj_pos in *. lia.
  - apply num_le_nonpos_float, float_of_Q_neg_sign.
Qed.

Lemma num_min_100_le (p : pynum) :
  num_ext (num_min_100 p) <> None -> num_le (num_min_100 p) (PInt 100) = true.
Proof.
  unfold num_min_100. destruct (num_lt (PInt 100) p) eqn:E; intros Hp; [reflexivity|].
  apply num_lt_false_le; [cbn; discriminate | exact Hp | exact E].
Qed.

Lemma bind_inr {A B : Type} (c : exc + A) (k : A -> exc + B) (b : B) :
  bind c k = inr b -> exists a, c = inr a /\ k a = inr b.
Proof. destruct c as [e|a]; simpl; [discriminate | eauto]. Qed.

Lemma calculate_score_min (lead : dict) (rw ew sw : value) (p : pynum) :
  calculate_score lead rw ew sw = inr p -> exists t, p = num_min_100 t.
Proof.
  unfold calculate_score. intros H.
  repeat (apply bind_inr in H; destruct H as (? & _ & H); cbv beta zeta in H).
  injection H as <-. eauto.
Qed.

Lemma calculate_score_le (lead : dict) (rw ew sw : value) (p : pynum) :
  calculate_score lead rw ew sw = inr p -> num_ext p <> None ->
  num_le (num_round2 p) (PInt 100) = true.
Proof.
  intros H Hp. apply num_round2_le_100.
  destruct (calculate_score_min lead rw ew sw p H) as [t ->].
  apply num_min_100_le. exact Hp.
Qed.

Lemma deref_app (h extra : heap) (v : value) :
  valid_ref h v -> deref (h ++ extra)%list v = deref h v.
Proof.
  destruct v; simpl; auto. intros Hl. rewrite nth_error_app1 by exact Hl. reflexivity.
Qed.

Lemma valid_ref_app (h extra : heap) (v : value) :
  valid_ref h v -> valid_ref (h ++ extra)%list v.
Proof. destruct v; simpl; auto. rewrite length_app. lia. Qed.

Lemma score_leads_spec (ls : list value) (h : heap) (rw ew sw : value)
    (h1 : heap) (scored : list (loc * pynum)) :
  Forall (valid_ref h) ls ->
  score_leads h ls rw ew sw = inr (h1, scored) ->
  List.length scored = List.length ls /\
  List.length h1 = (List.length h + List.length ls)%nat /\
  (forall l, (l < List.length h)%nat -> nth_error h1 l = nth_error h l) /\
  (forall i v, nth_error ls i = Some v ->
     exists d p0, deref h v = inr d /\ calculate_score d rw ew sw = inr p0 /\
                  nth_error scored i = Some ((List.length h + i)%nat, num_round2 p0) /\
                  nth_error h1 (List.length h + i)
                  = Some (dict_set "score" (value_of_num (num_round2 p0)) d)).
Proof.
  revert h h1 scored.
  induction ls as [|lead rest IH]; intros h h1 scored Hval Hrun.
  - simpl in Hrun. injection Hrun as <- <-.
    split; [reflexivity|]. split; [simpl; lia|]. split; [reflexivity|].
    intros [|i] v Hv; discriminate.
  - inversion Hval as [|? ? Hv0 Hval']; subst.
    cbn [score_leads] in Hrun. unfold bind in Hrun.
    destruct (deref h lead) as [e|d] eqn:Hd; [discriminate|].
    destruct (calculate_score d rw ew sw) as [e|sc] eqn:Hc; [discriminate|].
    set (h' := (h ++ [dict_set "score" (value_of_num (num_round2 sc)) d])%list) in Hrun.
    destruct (score_leads h' rest rw ew sw) as [e|[h1' sc']] eqn:Hr; [discriminate|].
    simpl in Hrun. injection Hrun as Eh Es. subst h1 scored.
    assert (Hval'' : Forall (valid_ref h') rest)
      by (eapply Forall_impl; [|exact Hval']; intros v; apply valid_ref_app).
    destruct (IH h' h1' sc' Hval'' Hr) as (IH1 & IH2 & IH3 & IH4).
    assert (Hlen' : List.length h' = S (List.length h))
      by (unfold h'; rewrite length_app; simpl; lia).
    split; [simpl; rewrite IH1; reflexivity|].
    split; [rewrite IH2, Hlen'; simpl; lia|].
    split.
    + intros l Hl. rewrite IH3 by lia. unfold h'. apply nth_error_app1. exact Hl.
    + intros [|i] v Hv; simpl in Hv.
      * injection Hv as <-. exists d, sc.
        split; [exact Hd|]. split; [exact Hc|]. split; [simpl; rewrite Nat.add_0_r; reflexivity|].
        rewrite Nat.add_0_r, IH3 by lia. unfold h'.
        rewrite nth_error_app2 by lia. rewrite Nat.sub_diag. reflexivity.
      * destruct (IH4 i v Hv) as (d' & p0 & Hd' & Hc' & Hs & Hh).
        exists d', p0. split.
        -- rewrite <- Hd'. unfold h'. symmetry. apply deref_app.
           rewrite Forall_forall in Hval'. apply Hval'. eapply nth_error_In. exact Hv.
        -- rewrite Hlen' in Hs, Hh. simpl. rewrite <- Nat.add_succ_comm.
           split; [exact Hc'|]. split; [exact Hs | exact Hh].
Qed.

Lemma deref_valid (h : heap) (v : value) (d : dict) :
  deref h v = inr d -> valid_ref h v.
Proof.
  destruct v; simpl; auto. destruct (nth_error h l) eqn:E; [|discriminate].
  intros _. apply nth_error_Some. congruence.
Qed.

Lemma scorable_lead_app (h extra : heap) (rw ew sw v : value) :
  scorable_lead h rw ew sw v -> scorable_lead (h ++ extra)%list rw ew sw v.
Proof.
  intros (d & p & Hd & Hrest). exists d, p. split; [|exact Hrest].
  rewrite deref_app by (eapply deref_valid; exact Hd). exact Hd.
Qed.

Lemma score_leads_ok (ls : list value) (h : heap) (rw ew sw : value) :
  Forall (scorable_lead h rw ew sw) ls ->
  exists h1 scored, score_leads h ls rw ew sw = inr (h1, scored).
Proof.
  revert h. induction ls as [|lead rest IH]; intros h Hok.
  - exists h, []. reflexivity.
  - inversion Hok as [|? ? (d & p & Hd & _ & Hs & _) Hok']; subst.
    cbn [score_leads]. unfold bind. rewrite Hd, Hs.
    set (h' := (h ++ [dict_set "score" (value_of_num (num_round2 p)) d])%list).
    assert (Hok'' : Forall (scorable_lead h' rw ew sw) rest)
      by (eapply Forall_impl; [|exact Hok']; intros v; apply scorable_lead_app).
    destruct (IH h' Hok'') as (h1 & scored & Hr').
    rewrite Hr'. exists h1, ((List.length h, num_round2 p) :: scored). reflexivity.
Qed.



Lemma dict_mem_set (k k' : string) (v : value) (d : dict) :
  dict_mem k d = true -> dict_mem k (dict_set k' v d) = true.
Proof.
  unfold dict_mem. rewrite dict_get_set. destruct (String.eqb k k'); auto.
Qed.




(** ** Workflow state updates and graph execution *)

Lemma in_mapping_values_spec (k : string) :
  in_mapping_values k = true <-> In k (map snd output_mapping).
Proof.
  unfold in_mapping_values. rewrite existsb_exists. split.
  - intros [[a b] [Hin Heq]]. apply String.eqb_eq in Heq. simpl in Heq. subst.
    apply (in_map snd) in Hin. exact Hin.
  - intros Hin. apply in_map_iff in Hin as [[a b] [Heq Hin]]. simpl in Heq. subst.
    exists (a, k). split; [exact Hin | apply String.eqb_refl].
Qed.

Lemma update_state_aux_app (state : dict) (step_id : string) (o1 o2 : dict) :
  update_state_aux state step_id (o1 ++ o2)%list
  = update_state_aux (update_state_aux state step_id o1) step_id o2.
Proof.
  revert state. induction o1 as [|[k v] o1 IH]; intros state; [reflexivity|].
  cbn [update_state_aux app]. apply IH.
Qed.

(** [update_state_with_output] writes only the seven state keys of
    [output_mapping] ([leads], [enriched_leads], [ranked_leads], [messages],
    [sent_status], [responses], [recommendations]): every other key, such as
    [step_count], [errors] or a direct input, keeps its value. *)
Theorem update_state_only_mapped_keys (state output : dict) (step_id k : string) :
  ~ In k (map snd output_mapping) ->
  dict_get k (update_state_with_output state step_id output) = dict_get k state.
Proof.
  intros Hk. apply update_state_aux_other.
  destruct (in_mapping_values k) eqn:E; [|reflexivity].
  exfalso. apply Hk, in_mapping_values_spec, E.
Qed.

Lemma update_state_only_mapped_keys_witness :
  dict_get "step_count"
    (update_state_with_output [("step_count", VNum 1)] "scoring" [("step_count", VNum 7)])
  = Some (VNum 1).
Proof.
  apply (update_state_only_mapped_keys [("step_count", VNum 1)] [("step_count", VNum 7)]
           "scoring" "step_count").
  simpl. intuition discriminate.
Defined.

(** For a step id of [output_mapping] with state key [t], an output whose
    last entry has a key outside the mapped keys leaves that entry's value in
    [state[t]], whatever the earlier entries wrote there. *)
Theorem update_state_last_entry_wins (state pre : dict) (step_id t k : string) (v : value) :
  assoc_str step_id output_mapping = Some t ->
  ~ In k (map snd output_mapping) ->
  dict_get t (update_state_with_output state step_id (pre ++ [(k, v)])%list) = Some v.
Proof.
  intros Ht Hk. unfold update_state_with_output. rewrite update_state_aux_app.
  cbn [update_state_aux].
  destruct (in_mapping_values k) eqn:E; [exfalso; apply Hk, in_mapping_values_spec, E|].
  rewrite Ht, dict_get_set, String.eqb_refl. reflexivity.
Qed.

(** The output of [FeedbackTrainerAgent.run] under the step id
    [feedback_trainer]: [state['recommendations']] ends as the [status]
    string. *)
Lemma update_state_last_entry_wins_witness :
  dict_get "recommendations"
    (update_state_with_output [("step_count", VNum 4); ("errors", VList [])] "feedback_trainer"
       [("recommendations", VList [VObj [("category", VStr "follow_up")]]);
        ("campaign_metrics", VObj [("emails_sent", VNum 5)]);
        ("status", VStr "pending_approval")])
  = Some (VStr "pending_approval").
Proof.
  apply (update_state_last_entry_wins [("step_count", VNum 4); ("errors", VList [])]
           [("recommendations", VList [VObj [("category", VStr "follow_up")]]);
            ("campaign_metrics", VObj [("emails_sent", VNum 5)])]
           "feedback_trainer" "recommendations" "status").
  - reflexivity.
  - simpl. intuition discriminate.
Defined.
Lemma dict_set_new (k : string) (v : value) (d : dict) :
  ~ In k (map fst d) -> dict_set k v d = (d ++ [(k, v)])%list.
Proof.
  induction d as [|[k0 v0] d IH]; simpl; intros Hn; [reflexivity|].
  destruct (String.eqb k k0) eqn:E.
  - apply String.eqb_eq in E. subst. exfalso. apply Hn. left. reflexivity.
  - rewrite IH; [reflexivity|]. intros H. apply Hn. right. exact H.
Qed.

Lemma prepare_inputs_aux_keys (cfg state acc : dict) (w : list string) :
  NoDup (map fst acc ++ map fst cfg)%list ->
  map fst (fst (prepare_inputs_aux cfg state acc w)) = (map fst acc ++ map fst cfg)%list.
Proof.
  revert acc w. induction cfg as [|[key v] rest IH]; intros acc w Hnd.
  - simpl. rewrite app_nil_r. reflexivity.
  - rewrite prepare_inputs_aux_step.
    assert (Hn : ~ In key (map fst acc)).
    { intros Hin. simpl in Hnd. apply NoDup_remove_2 in Hnd. apply Hnd, in_or_app. left. exact Hin. }
    rewrite dict_set_new by exact Hn.
    rewrite IH; rewrite map_app; simpl; rewrite <- app_assoc; [reflexivity|exact Hnd].
Qed.

(** [prepare_inputs_from_state] hands the agent exactly the keys of the
    step's [inputs] mapping, in their order, each with its own value resolved
    against the state: no key is dropped or added. *)
Theorem prepare_inputs_same_keys (cfg state : dict) :
  NoDup (map fst cfg) ->
  map fst (fst (prepare_inputs_from_state cfg state)) = map fst cfg /\
  (forall k v, dict_get k cfg = Some v ->
     dict_get k (fst (prepare_inputs_from_state cfg state)) = Some (resolve_one v state)).
Proof.
  intros Hnd. split.
  - apply (prepare_inputs_aux_keys cfg state [] []). exact Hnd.
  - intros k v Hk. unfold prepare_inputs_from_state.
    rewrite prepare_inputs_aux_get by exact Hnd. rewrite Hk. reflexivity.
Qed.

Lemma prepare_inputs_same_keys_witness :
  map fst (fst (prepare_inputs_from_state
                  [("leads", VStr "{{prospect_search.output.leads}}"); ("top_n", VNum 5);
                   ("tone", VStr "{{missing}}")] [("leads", VList [])]))
  = ["leads"; "top_n"; "tone"].
Proof.
  apply (prepare_inputs_same_keys
           [("leads", VStr "{{prospect_search.output.leads}}"); ("top_n", VNum 5);
            ("tone", VStr "{{missing}}")] [("leads", VList [])]).
  repeat constructor; simpl; intuition discriminate.
Defined.

Lemma dict_get_flat_map (ks : list string) (g : string -> option value) (k : string) :
  NoDup ks ->
  dict_get k (flat_map (fun k' => match g k' with Some v => [(k', v)] | None => [] end) ks)
  = if existsb (String.eqb k) ks then g k else None.
Proof.
  induction 1 as [|a ks Ha _ IH]; [reflexivity|]. simpl.
  destruct (String.eqb_spec k a) as [->|Hne].
  - destruct (g a) eqn:Ga; simpl; [rewrite String.eqb_refl; reflexivity|].
    rewrite IH. destruct (existsb (String.eqb a) ks) eqn:E; [|reflexivity].
    apply existsb_exists in E as (k' & Hin & Heq). apply String.eqb_eq in Heq. subst.
    contradiction.
  - destruct (g a); simpl; [|exact IH].
    apply String.eqb_neq in Hne. rewrite Hne. exact IH.
Qed.

Lemma write_channels_get (chans upd : dict) (k : string) :
  dict_get k (write_channels chans upd)
  = if existsb (String.eqb k) state_keys
    then match dict_get k upd with Some v => Some v | None => dict_get k chans end
    else None.
Proof.
  unfold write_channels.
  rewrite (flat_map_ext _
             (fun k' => match (match dict_get k' upd with
                               | Some v => Some v | None => dict_get k' chans end) with
                        | Some v => [(k', v)] | None => [] end)).
  - apply (dict_get_flat_map state_keys
             (fun k' => match dict_get k' upd with Some v => Some v | None => dict_get k' chans end)).
    unfold state_keys. repeat (constructor; [simpl; intuition discriminate|]). constructor.
  - intros a. destruct (dict_get a upd); [reflexivity|]. destruct (dict_get a chans); reflexivity.
Qed.

Lemma In_state_keys (k : string) : existsb (String.eqb k) state_keys = true -> In k state_keys.
Proof.
  intros H. apply existsb_exists in H as (k' & Hin & Heq). apply String.eqb_eq in Heq. subst.
  exact Hin.
Qed.

Lemma state_keys_existsb (k : string) : In k state_keys -> existsb (String.eqb k) state_keys = true.
Proof. intros H. apply existsb_exists. exists k. split; [exact H | apply String.eqb_refl]. Qed.

Lemma write_channels_ok (chans upd : dict) : chans_ok (write_channels chans upd).
Proof. intros k Hk. rewrite write_channels_get, Hk. reflexivity. Qed.

Lemma incr_step_count_spec (st : dict) (z : Z) :
  dict_get "step_count" st = Some (VNum (z # 1)) ->
  incr_step_count st = inr (dict_set "step_count" (VNum ((z + 1) # 1)) st).
Proof. intros H. unfold incr_step_count, dict_get_default. rewrite H. reflexivity. Qed.

Lemma node_function_ok (n : node) (st st' : dict) (z : Z) :
  dict_get "step_count" st = Some (VNum (z # 1)) ->
  node_function n st = inr st' ->
  dict_get "step_count" st' = Some (VNum ((z + 1) # 1)) /\
  (forall k, ~ In k ("step_count" :: map snd output_mapping) -> dict_get k st' = dict_get k st).
Proof.
  intros Hq Hn. unfold node_function in Hn.
  destruct (dict_get "inputs" (node_step n)) as [[| | | | | |cfg|]|]; try discriminate.
  destruct (node_agent n _) as [e|out]; [discriminate|].
  assert (Hsc : dict_get "step_count" (update_state_with_output st (node_id n) out)
                = Some (VNum (z # 1))).
  { unfold update_state_with_output. rewrite update_state_aux_other; [exact Hq|reflexivity]. }
  rewrite (incr_step_count_spec _ _ Hsc) in Hn. injection Hn as <-.
  split.
  - rewrite dict_get_set. reflexivity.
  - intros k Hk. rewrite dict_get_set.
    destruct (String.eqb k "step_count") eqn:E.
    + apply String.eqb_eq in E. subst. exfalso. apply Hk. left. reflexivity.
    + unfold update_state_with_output. apply update_state_aux_other.
      destruct (in_mapping_values k) eqn:E2; [|reflexivity].
      exfalso. apply Hk. right. apply in_mapping_values_spec, E2.
Qed.

Lemma run_chain_completed (fuel : nat) :
  forall (ns : list node) (chans final : dict) (trace : list string) (z : Z),
  chans_ok chans ->
  dict_get "step_count" chans = Some (VNum (z # 1)) ->
  run_chain fuel ns chans = (trace, inr final) ->
  trace = map node_id ns /\ (List.length ns < fuel)%nat /\ chans_ok final /\
  dict_get "step_count" final = Some (VNum ((z + Z.of_nat (List.length ns)) # 1)) /\
  (forall k, ~ In k ("step_count" :: map snd output_mapping) -> dict_get k final = dict_get k chans).
Proof.
  induction fuel as [|fuel IH]; intros ns chans final trace z Hok Hz Hrun;
    [simpl in Hrun; discriminate|].
  destruct ns as [|n ns].
  - simpl in Hrun. injection Hrun as <- <-.
    split; [reflexivity|]. split; [simpl; lia|]. split; [exact Hok|].
    split; [rewrite Z.add_0_r; exact Hz | auto].
  - simpl in Hrun. destruct (node_function n chans) as [e|out] eqn:Hn; [discriminate|].
    destruct (run_chain fuel ns (write_channels chans out)) as [tr r] eqn:Hr.
    injection Hrun as <- ->.
    destruct (node_function_ok n chans out z Hz Hn) as [Hz1 Hk1].
    assert (Hz1' : dict_get "step_count" (write_channels chans out) = Some (VNum ((z + 1) # 1)))
      by (rewrite write_channels_get, state_keys_existsb, Hz1; [reflexivity | simpl; tauto]).
    destruct (IH ns (write_channels chans out) final tr (z + 1)%Z (write_channels_ok chans out)
                Hz1' Hr) as (Htr & Hlen & Hokf & Hzf & Hk).
    split; [simpl; congruence|]. split; [simpl; lia|]. split; [exact Hokf|]. split.
    + replace (z + Z.of_nat (List.length (n :: ns)))%Z with (z + 1 + Z.of_nat (List.length ns))%Z
        by (simpl List.length; lia).
      exact Hzf.
    + intros k Hk'. rewrite Hk by exact Hk'. rewrite write_channels_get.
      destruct (existsb (String.eqb k) state_keys) eqn:E.
      * rewrite Hk1 by exact Hk'. destruct (dict_get k chans); reflexivity.
      * symmetry. apply Hok, E.
Qed.

(** A run of the linear chain in which no node raises has fewer nodes than
    the recursion limit (25); it enters every node in order and adds one to
    an [int] [step_count] per node. The final state holds only keys of
    [WorkflowState]: those that no node writes ([errors], and the state keys
    outside [output_mapping]) keep the input's values, every other key of
    the input is dropped. *)
Theorem invoke_chain_completed (ns : list node) (st final : dict) (trace : list string) (z : Z) :
  dict_get "step_count" st = Some (VNum (z # 1)) ->
  invoke_chain ns st = (trace, inr final) ->
  trace = map node_id ns /\ (List.length ns < recursion_limit)%nat /\
  dict_get "step_count" final = Some (VNum ((z + Z.of_nat (List.length ns)) # 1)) /\
  (forall k, In k state_keys -> ~ In k ("step_count" :: map snd output_mapping) ->
     dict_get k final = dict_get k st) /\
  (forall k, ~ In k state_keys -> dict_get k final = None).
Proof.
  intros Hz Hrun. unfold invoke_chain in Hrun.
  assert (Hz0 : dict_get "step_count" (write_channels [] st) = Some (VNum (z # 1)))
    by (rewrite write_channels_get, state_keys_existsb, Hz; [reflexivity | simpl; tauto]).
  destruct (run_chain_completed recursion_limit ns (write_channels [] st) final trace z
              (write_channels_ok [] st) Hz0 Hrun) as (Htr & Hlen & Hok & Hzf & Hk).
  split; [exact Htr|]. split; [exact Hlen|]. split; [exact Hzf|]. split.
  - intros k Hin Hk'. rewrite Hk by exact Hk'. rewrite write_channels_get, state_keys_existsb
      by exact Hin.
    destruct (dict_get k st); reflexivity.
  - intros k Hn. apply Hok. destruct (existsb (String.eqb k) state_keys) eqn:E; [|reflexivity].
    exfalso. apply Hn, In_state_keys, E.
Qed.

Lemma invoke_chain_completed_witness :
  exists final, invoke_chain [demo_node1; demo_node3] chain_witness_state
                = (["prospect_search"; "outreach_content"], inr final) /\
    dict_get "step_count" final = Some (VNum 2) /\
    dict_get "errors" final = Some (VList []).
Proof.
  destruct (invoke_chain [demo_node1; demo_node3] chain_witness_state) as [tr [e|final]] eqn:E;
    [vm_compute in E; discriminate|].
  destruct (invoke_chain_completed [demo_node1; demo_node3] chain_witness_state final tr 0
              eq_refl E) as (Htr & _ & Hsc & Hk & _).
  exists final. rewrite Htr in *. split; [reflexivity|]. split; [exact Hsc|].
  rewrite Hk; [reflexivity | apply In_state_keys; reflexivity | simpl; intuition discriminate].
Defined.

Lemma add_direct_inputs_other (inputs st : dict) (k : string) :
  dict_mem k inputs = false -> dict_get k (add_direct_inputs inputs st) = dict_get k st.
Proof.
  revert st. induction inputs as [|[key v] rest IH]; intros st Hk; [reflexivity|].
  unfold dict_mem in Hk. simpl in Hk.
  destruct (String.eqb k key) eqn:E; [discriminate|].
  simpl. rewrite IH by exact Hk.
  destruct v; try (rewrite dict_get_set, E; reflexivity).
  destruct (startswith s "{{"); [reflexivity|]. rewrite dict_get_set, E. reflexivity.
Qed.

(** [execute_langgraph] never reports [partial_failure] when the first step's
    inputs set neither [errors] nor [step_count]: its report is either
    [completed], after every node ran (fewer than 25 of them), with
    [steps_executed] equal to the number of nodes, or [failed]. *)
Theorem execute_langgraph_completed_or_failed (ns : list node) (wf s1 inputs rep : dict)
    (rest : list value) (trace : list string) :
  dict_get "steps" wf = Some (VList (VObj s1 :: rest)) ->
  dict_get "inputs" s1 = Some (VObj inputs) ->
  dict_mem "errors" inputs = false -> dict_mem "step_count" inputs = false ->
  execute_langgraph ns wf = (trace, inr rep) ->
  (trace = map node_id ns /\ (List.length ns < recursion_limit)%nat /\
   dict_get "status" rep = Some (VStr "completed") /\
   dict_get "steps_executed" rep = Some (VNum (Z.of_nat (List.length ns) # 1)))
  \/ dict_get "status" rep = Some (VStr "failed").
Proof.
  intros Hsteps Hin Herr Hsc Hexec.
  unfold execute_langgraph, initial_state_of in Hexec. rewrite Hsteps, Hin in Hexec.
  set (st0 := add_direct_inputs inputs [("step_count", VNum 0); ("errors", VList [])]) in Hexec.
  assert (Hq0 : dict_get "step_count" st0 = Some (VNum (0 # 1)))
    by (unfold st0; rewrite add_direct_inputs_other by exact Hsc; reflexivity).
  assert (He0 : dict_get "errors" st0 = Some (VList []))
    by (unfold st0; rewrite add_direct_inputs_other by exact Herr; reflexivity).
  destruct (invoke_chain ns st0) as [tr r] eqn:Hrun.
  injection Hexec as <- Hr.
  assert (Hfailed : forall e, failed_report wf e = inr rep -> dict_get "status" rep = Some (VStr "failed")).
  { intros e Hf. unfold failed_report, bind in Hf.
    destruct (workflow_name_of wf); [discriminate|]. injection Hf as <-. reflexivity. }
  destruct r as [e|final].
  - right. exact (Hfailed e Hr).
  - destruct (build_report wf final) as [e|results] eqn:Hb; [right; exact (Hfailed e Hr)|].
    injection Hr as ->. left.
    destruct (invoke_chain_completed ns st0 final tr 0 Hq0 Hrun) as (Htr & Hlen & Hzf & Hk & _).
    assert (Hef : dict_get "errors" final = Some (VList [])).
    { rewrite Hk; [exact He0 | apply In_state_keys; reflexivity | simpl; intuition discriminate]. }
    unfold build_report, bind in Hb.
    destruct (workflow_name_of wf) as [|wn]; [discriminate|].
    unfold dict_get_default in Hb at 1. rewrite Hef in Hb. simpl py_len in Hb. cbv iota beta in Hb.
    destruct (py_len (dict_get_default "leads" (VList []) final)); [discriminate|].
    destruct (py_len (dict_get_default "ranked_leads" (VList []) final)); [discriminate|].
    destruct (py_len (dict_get_default "messages" (VList []) final)); [discriminate|].
    destruct (py_len (dict_get_default "recommendations" (VList []) final)); [discriminate|].
    injection Hb as <-. split; [exact Htr|]. split; [exact Hlen|]. split; [reflexivity|].
    unfold dict_get_default. simpl. rewrite Hzf. reflexivity.
Qed.

Lemma execute_langgraph_completed_or_failed_witness :
  exists rep, execute_langgraph [demo_node1; demo_node3] demo_workflow_dict
              = (["prospect_search"; "outreach_content"], inr rep) /\
    dict_get "status" rep = Some (VStr "completed").
Proof.
  destruct (execute_langgraph [demo_node1; demo_node3] demo_workflow_dict) as [tr [e|rep]] eqn:E;
    [vm_compute in E; discriminate|].
  destruct (execute_langgraph_completed_or_failed [demo_node1; demo_node3] demo_workflow_dict
              demo_step1 [("industry", VStr "SaaS")] rep [VObj demo_step2; VObj demo_step3] tr
              eq_refl eq_refl eq_refl eq_refl E) as [(Htr & _ & Hst & _)|Hf].
  - exists rep. rewrite Htr. split; [reflexivity | exact Hst].
  - vm_compute in E. injection E as _ <-. discriminate Hf.
Defined.

Lemma existsb_eqb_In (l : list string) (k : string) : existsb (String.eqb k) l = true -> In k l.
Proof.
  intros H. apply existsb_exists in H as (k' & Hin & Heq). apply String.eqb_eq in Heq. subst.
  exact Hin.
Qed.

Lemma add_node_check_ok (seen : list string) (name : string) :
  node_name_valid name -> ~ In name seen -> add_node_check seen name = inr tt.
Proof.
  intros (Hk & Hend & Hstart & Hbar & Hcolon) Hs. unfold add_node_check.
  destruct (existsb (String.eqb name) state_keys) eqn:E1;
    [exfalso; apply Hk, existsb_eqb_In, E1|].
  destruct (existsb (String.eqb name) seen) eqn:E2; [exfalso; apply Hs, existsb_eqb_In, E2|].
  apply String.eqb_neq in Hend, Hstart. rewrite Hend, Hstart, Hbar, Hcolon. reflexivity.
Qed.

Lemma build_nodes_spec (reg : registry) (steps : list dict) : forall seen,
  Forall (fun st => exists id an a, dict_get "id" st = Some (VStr id) /\
                     dict_get "agent" st = Some (VStr an) /\ reg an = Some a /\
                     node_name_valid id /\ ~ In id seen) steps ->
  NoDup (map (dict_get "id") steps) ->
  exists ns, build_nodes reg seen (map VObj steps) = inr ns /\ map node_step ns = steps /\
    Forall2 (fun st n => dict_get "id" st = Some (VStr (node_id n)) /\
                         exists an, dict_get "agent" st = Some (VStr an) /\ reg an = Some (node_agent n))
            steps ns.
Proof.
  induction steps as [|st steps IH]; intros seen Hok Hnd.
  - exists []. repeat split; constructor.
  - inversion Hok as [|? ? (id & an & a & Hid & Han & Ha & Hv & Hs) Hok']; subst.
    inversion Hnd as [|? ? Hnin Hnd']; subst.
    destruct (IH (seen ++ [id])%list) as (ns & Hb & Hst & Hf).
    + rewrite Forall_forall in Hok' |- *. intros st' Hin.
      destruct (Hok' st' Hin) as (id' & an' & a' & Hid' & Han' & Ha' & Hv' & Hs').
      exists id', an', a'. split; [exact Hid'|]. split; [exact Han'|]. split; [exact Ha'|].
      split; [exact Hv'|]. intros Hin'. apply in_app_or in Hin' as [H|H]; [contradiction|].
      destruct H as [<-|[]]. apply Hnin. rewrite Hid, <- Hid'. apply in_map, Hin.
    + exact Hnd'.
    + exists ({| node_id := id; node_step := st; node_agent := a |} :: ns).
      cbn [map build_nodes]. rewrite Hid, Han. unfold load_agent_class. rewrite Ha. cbn [bind].
      rewrite (add_node_check_ok seen id Hv Hs). cbn [bind]. rewrite Hb. cbn [bind].
      split; [reflexivity|]. split; [simpl; congruence|].
      constructor; [|exact Hf]. split; [exact Hid|]. exists an. split; [exact Han | exact Ha].
Qed.

(** [build_langgraph] succeeds on a non-empty list of step mappings whose
    [id]s are distinct strings that [add_node] accepts (not a key of
    [WorkflowState], not [__end__] or [__start__], without ['|'] or [':'])
    and whose [agent]s are strings naming agent classes that load: it builds
    one node per step, in the order of the steps, each named by its step id
    and running the class its step names. *)
Theorem build_langgraph_one_node_per_step (reg : registry) (wf : dict) (steps : list dict) :
  dict_get "steps" wf = Some (VList (map VObj steps)) -> steps <> [] ->
  Forall (fun st => exists id an a, dict_get "id" st = Some (VStr id) /\
                     dict_get "agent" st = Some (VStr an) /\ reg an = Some a /\
                     node_name_valid id) steps ->
  NoDup (map (dict_get "id") steps) ->
  exists ns, build_langgraph reg wf = inr ns /\ map node_step ns = steps /\
    Forall2 (fun st n => dict_get "id" st = Some (VStr (node_id n)) /\
                         exists an, dict_get "agent" st = Some (VStr an) /\ reg an = Some (node_agent n))
            steps ns.
Proof.
  intros Hs Hne Hok Hnd. destruct (build_nodes_spec reg steps []) as (ns & Hb & Hn & Hf).
  - eapply Forall_impl; [|exact Hok]. intros st (id & an & a & H1 & H2 & H3 & H4).
    exists id, an, a. split; [exact H1|]. split; [exact H2|]. split; [exact H3|].
    split; [exact H4 | intros []].
  - exact Hnd.
  - exists ns. unfold build_langgraph. rewrite Hs. cbn [bind]. rewrite Hb. cbn [bind].
    destruct steps as [|st steps]; [congruence|]. split; [reflexivity|]. split; assumption.
Qed.

Lemma build_langgraph_one_node_per_step_witness :
  exists ns, build_langgraph demo_registry demo_workflow_dict = inr ns /\
             map node_step ns = [demo_step1; demo_step2; demo_step3].
Proof.
  destruct (build_langgraph_one_node_per_step demo_registry demo_workflow_dict
              [demo_step1; demo_step2; demo_step3] eq_refl ltac:(discriminate))
    as (ns & Hb & Hs & _).
  - repeat (constructor;
            [do 3 eexists; split; [reflexivity|]; split; [reflexivity|]; split; [reflexivity|];
             split; [simpl; intuition discriminate|];
             split; [discriminate|]; split; [discriminate|]; split; reflexivity|]).
    constructor.
  - vm_compute. repeat constructor; simpl; intuition discriminate.
  - exists ns. split; assumption.
Defined.

(** ** The module name of an agent class *)

Lemma to_upper_to_lower (c : ascii) : is_upper c = true -> to_upper (to_lower c) = c.
Proof. destruct c as [[] [] [] [] [] [] [] []]; vm_compute; congruence. Qed.

Lemma to_lower_lower (c : ascii) : is_lower c = true -> to_lower c = c.
Proof. destruct c as [[] [] [] [] [] [] [] []]; vm_compute; congruence. Qed.

Lemma letter_not_underscore (c : ascii) :
  (is_upper c || is_lower c)%bool = true -> Ascii.eqb (to_lower c) "_"%char = false.
Proof. destruct c as [[] [] [] [] [] [] [] []]; vm_compute; congruence. Qed.

Lemma letter_not_underscore' (c : ascii) :
  (is_upper c || is_lower c)%bool = true -> Ascii.eqb c "_"%char = false.
Proof. destruct c as [[] [] [] [] [] [] [] []]; vm_compute; congruence. Qed.

Lemma camel_snake_aux (s : list ascii) :
  Forall (fun c => (is_upper c || is_lower c)%bool = true) s ->
  camel_aux false (snake_aux false s) = s.
Proof.
  induction 1 as [|c s Hc _ IH]; [reflexivity|]. simpl.
  destruct (is_upper c) eqn:Hu; simpl.
  - rewrite letter_not_underscore by (rewrite Hu; reflexivity).
    rewrite to_upper_to_lower by exact Hu. rewrite IH. reflexivity.
  - simpl in Hc. rewrite to_lower_lower by exact Hc.
    rewrite letter_not_underscore' by (rewrite Hc, orb_true_r; reflexivity).
    rewrite IH. reflexivity.
Qed.

Lemma camel_snake (s : string) :
  class_name_shape s ->
  string_of_list_ascii (camel_aux true (list_ascii_of_string (module_name_of s))) = s.
Proof.
  unfold class_name_shape, ascii_letters, module_name_of.
  rewrite list_ascii_of_string_of_list_ascii.
  intros [Hl Hs]. rewrite <- (string_of_list_ascii_of_string s) at 2. f_equal.
  destruct (list_ascii_of_string s) as [|c l]; [contradiction|].
  inversion Hl as [|? ? Hc Hl']; subst. simpl. rewrite Hs. simpl.
  rewrite letter_not_underscore by exact Hc. rewrite to_upper_to_lower by exact Hs.
  rewrite camel_snake_aux by exact Hl'. reflexivity.
Qed.

(** [load_agent_class] imports distinct modules for distinct class names: on
    names of ASCII letters starting with a capital, the module name
    [re.sub(r'(?<!^)(?=[A-Z])', '_', name).lower()] determines the name. *)
Theorem module_name_of_injective (a b : string) :
  class_name_shape a -> class_name_shape b -> a <> b -> module_name_of a <> module_name_of b.
Proof.
  intros Ha Hb Hne Heq. apply Hne.
  rewrite <- (camel_snake a Ha), <- (camel_snake b Hb), Heq. reflexivity.
Qed.

Lemma module_name_of_injective_witness :
  module_name_of "ScoringAgent" = "scoring_agent" /\
  module_name_of "ScoringAgent" <> module_name_of "SCoringAgent".
Proof.
  split; [reflexivity|].
  apply module_name_of_injective.
  - split; [repeat constructor | reflexivity].
  - split; [repeat constructor | reflexivity].
  - discriminate.
Defined.

(** ** Prospect search *)

Lemma as_num_inr (v : value) (x : Q) :
  as_num v = inr x -> exists p, num_of_value v = inr p /\ num_ext p = Some (EFin x).
Proof.
  unfold as_num, bind. destruct (num_of_value v) as [|p]; [discriminate|].
  destruct (num_ext p) as [[|y|]|] eqn:E; try discriminate.
  intros H. injection H as <-. exists p. split; reflexivity || exact E.
Qed.

Lemma filter_icp_aux_spec (companies : list dict) (m : Q) (maxo : option Q) (sigs : list value) :
  Forall (fun c => exists e, as_num (dict_get_default "employee_count" (VNum 0) c) = inr e)
         companies ->
  filter_icp_aux (VNum m) (option_map VNum maxo) (VList sigs) companies
  = inr (filter (icp_match m maxo sigs) companies).
Proof.
  induction 1 as [|c cs [e He] _ IH]; [reflexivity|].
  destruct (as_num_inr _ _ He) as (p & Hp & Hext).
  assert (Hinf : num_le p (PFloat (S754_infinity false)) = true)
    by (unfold num_le; rewrite Hext; reflexivity).
  assert (Hlo : py_le (VNum m) (dict_get_default "employee_count" (VNum 0) c)
                = inr (num_le (num_of_lit m) p))
    by (unfold py_le; cbn [num_of_value]; rewrite Hp; reflexivity).
  assert (Hhi : forall M, py_le (dict_get_default "employee_count" (VNum 0) c) (VNum M)
                          = inr (num_le p (num_of_lit M))).
  { intros M. unfold py_le.
    destruct (dict_get_default "employee_count" (VNum 0) c); cbn in Hp; try discriminate Hp;
      injection Hp as <-; reflexivity. }
  cbn [filter_icp_aux filter]. unfold in_employee_range, icp_match.
  rewrite Hp, Hlo. cbn [bind negb andb].
  destruct (num_le (num_of_lit m) p); cbn [bind negb andb]; [|exact IH].
  destruct maxo as [M|]; cbn [option_map] in *.
  - rewrite Hhi. cbn [bind]. destruct (num_le p (num_of_lit M)); cbn [bind negb andb];
      [|exact IH].
    destruct sigs as [|s ss]; cbn [truthy py_in bind negb]; [rewrite IH; reflexivity|].
    destruct (existsb _ (s :: ss)); cbn [bind negb]; [rewrite IH; reflexivity | exact IH].
  - rewrite Hinf. cbn [bind negb andb].
    destruct sigs as [|s ss]; cbn [truthy py_in bind negb]; [rewrite IH; reflexivity|].
    destruct (existsb _ (s :: ss)); cbn [bind negb]; [rewrite IH; reflexivity | exact IH].
Qed.

(** On numeric bounds and a list of signals, [_filter_by_icp] keeps, in
    their order, exactly the companies whose employee count lies between the
    bounds (no upper bound when [max] is absent) and, unless the signal list
    is empty, whose signal is one of the signals. *)
Theorem filter_by_icp_filters (companies : list dict) (ec : dict) (m : Q) (maxo : option Q)
    (sigs : list value) :
  dict_get_default "min" (VNum 0) ec = VNum m ->
  dict_get "max" ec = option_map VNum maxo ->
  Forall (fun c => exists e, as_num (dict_get_default "employee_count" (VNum 0) c) = inr e)
         companies ->
  filter_by_icp companies (VObj ec) (VList sigs) = inr (filter (icp_match m maxo sigs) companies).
Proof.
  intros Hm HM Hc. unfold filter_by_icp. rewrite Hm, HM. apply filter_icp_aux_spec, Hc.
Qed.

Lemma filter_by_icp_filters_witness :
  filter_by_icp mock_companies (VObj [("min", VNum 100); ("max", VNum 400)])
    (VList [VStr "recent_funding"])
  = inr (filter (icp_match 100 (Some 400) [VStr "recent_funding"]) mock_companies).
Proof.
  apply filter_by_icp_filters; [reflexivity | reflexivity |].
  repeat constructor; eexists; reflexivity.
Defined.

Lemma filter_icp_aux_incl (lo : value) (hi : option value) (sigs : value) (companies r : list dict) :
  filter_icp_aux lo hi sigs companies = inr r -> incl r companies.
Proof.
  revert r. induction companies as [|c cs IH]; simpl; intros r H.
  - injection H as <-. intros x [].
  - unfold bind in H.
    destruct (in_employee_range lo hi _) as [|ok]; [discriminate|].
    destruct ok; simpl in H; [|apply incl_tl, IH, H].
    destruct (if truthy sigs then _ else _) as [|skip]; [discriminate|].
    destruct skip; [apply incl_tl, IH, H|].
    destruct (filter_icp_aux lo hi sigs cs) as [|r'] eqn:E; [discriminate|].
    injection H as <-. apply incl_cons; [left; reflexivity|]. apply incl_tl, IH; reflexivity.
Qed.

Lemma filter_by_icp_incl (companies r : list dict) (ec sigs : value) :
  filter_by_icp companies ec sigs = inr r -> incl r companies.
Proof.
  unfold filter_by_icp. destruct ec; try discriminate. apply filter_icp_aux_incl.
Qed.

Lemma remove_nth_perm {A : Type} (d : A) (i : nat) (l : list A) :
  (i < List.length l)%nat -> Permutation l (nth i l d :: remove_nth i l).
Proof.
  revert i. induction l as [|x l IH]; simpl; intros i Hi; [lia|].
  destruct i as [|i]; [reflexivity|].
  simpl. etransitivity; [apply perm_skip, (IH i); lia | apply perm_swap].
Qed.

Lemma remove_nth_length {A : Type} (i : nat) (l : list A) :
  (i < List.length l)%nat -> List.length (remove_nth i l) = pred (List.length l).
Proof.
  revert i. induction l as [|x l IH]; simpl; intros i Hi; [lia|].
  destruct i as [|i]; [reflexivity|]. simpl. rewrite IH by lia. lia.
Qed.

Lemma sample_aux_perm {A : Type} (d : A) (k : nat) (rs : list nat) (pop : list A) :
  (k <= List.length pop)%nat ->
  List.length (sample_aux d rs pop k) = k /\
  exists rest, Permutation pop (sample_aux d rs pop k ++ rest).
Proof.
  revert rs pop. induction k as [|k IH]; intros rs pop Hk; simpl.
  - split; [reflexivity|]. exists pop. reflexivity.
  - set (i := (hd O rs) mod (List.length pop)).
    assert (Hi : (i < List.length pop)%nat) by (apply Nat.mod_upper_bound; lia).
    destruct (IH (tl rs) (remove_nth i pop)) as [Hl [rest Hp]];
      [rewrite remove_nth_length by exact Hi; lia|].
    split; [rewrite Hl; reflexivity|].
    exists rest. etransitivity; [apply (remove_nth_perm d i pop Hi)|].
    simpl. apply perm_skip, Hp.
Qed.

Lemma mock_companies_keys :
  Forall (fun c => dict_mem "company" c = true /\ dict_mem "contact_name" c = true) mock_companies.
Proof. repeat constructor. Qed.

(** After validation, [ProspectSearchAgent.run] fails with [ValueError] when
    fewer than 5 companies pass the filter; otherwise, whatever the random
    draws, it returns between 5 and [min(8, n)] of the [n] filtered
    companies, each at most once. *)
Theorem prospect_search_lead_count (rn : nat) (rs : list nat) (inputs : dict)
    (filtered : list dict) :
  filter_by_icp mock_companies (dict_get_default "employee_count" (VObj []) inputs)
    (dict_get_default "signals" (VList []) inputs) = inr filtered ->
  ((List.length filtered < 5)%nat ->
     prospect_search_body rn rs inputs = inl "ValueError: empty range for randrange()") /\
  ((5 <= List.length filtered)%nat ->
     exists sel, prospect_search_body rn rs inputs = inr [("leads", VList (map VObj sel))] /\
       (5 <= List.length sel <= Nat.min 8 (List.length filtered))%nat /\
       exists rest, Permutation filtered (sel ++ rest)).
Proof.
  intros Hf. unfold prospect_search_body. rewrite Hf. simpl. unfold py_randint.
  split.
  - intros Hlt. replace (Z.min 8 (Z.of_nat (List.length filtered)) <? 5)%Z with true
      by (symmetry; apply Z.ltb_lt; lia).
    reflexivity.
  - intros Hge. replace (Z.min 8 (Z.of_nat (List.length filtered)) <? 5)%Z with false
      by (symmetry; apply Z.ltb_ge; lia).
    cbn [bind].
    set (n := Z.min 8 (Z.of_nat (List.length filtered))).
    set (k := Z.to_nat (5 + Z.of_nat rn mod (n - 5 + 1))).
    assert (Hk : (5 <= k <= Nat.min 8 (List.length filtered))%nat).
    { assert (0 <= Z.of_nat rn mod (n - 5 + 1) < n - 5 + 1)%Z
        by (apply Z.mod_pos_bound; unfold n; lia).
      unfold k. unfold n in *. lia. }
    clearbody k. unfold py_sample. replace (List.length filtered <? k)%nat with false
      by (symmetry; apply Nat.ltb_ge; lia).
    cbn [bind].
    destruct (sample_aux_perm [] k rs filtered) as [Hl [rest Hp]]; [exact (Nat.le_trans _ _ _ (proj2 Hk) (Nat.le_min_r _ _))|].
    destruct (sample_aux [] rs filtered k) as [|first sel'] eqn:Es; [simpl in Hl; lia|].
    assert (Hin : In first mock_companies).
    { apply (filter_by_icp_incl _ _ _ _ Hf). apply (Permutation_in _ (Permutation_sym Hp)).
      left; reflexivity. }
    destruct (proj1 (Forall_forall _ _) mock_companies_keys first Hin) as [H1 H2].
    rewrite H1, H2. simpl.
    exists (first :: sel'). split; [reflexivity|]. split; [rewrite Hl; exact Hk|].
    exists rest. exact Hp.
Qed.

Lemma prospect_search_lead_count_witness :
  exists filtered,
    filter_by_icp mock_companies (VObj [("min", VNum 100); ("max", VNum 1000)])
      (VList [VStr "recent_funding"; VStr "hiring_for_sales"]) = inr filtered /\
    ((List.length filtered < 5)%nat ->
       prospect_search_body 3%nat [2; 7; 1; 0; 4]%nat
         [("employee_count", VObj [("min", VNum 100); ("max", VNum 1000)]);
          ("signals", VList [VStr "recent_funding"; VStr "hiring_for_sales"])]
       = inl "ValueError: empty range for randrange()") /\
    ((5 <= List.length filtered)%nat ->
       exists sel, prospect_search_body 3%nat [2; 7; 1; 0; 4]%nat
         [("employee_count", VObj [("min", VNum 100); ("max", VNum 1000)]);
          ("signals", VList [VStr "recent_funding"; VStr "hiring_for_sales"])]
         = inr [("leads", VList (map VObj sel))] /\
       (5 <= List.length sel <= Nat.min 8 (List.length filtered))%nat /\
       exists rest, Permutation filtered (sel ++ rest)).
Proof.
  eexists. split; [reflexivity|].
  apply prospect_search_lead_count. reflexivity.
Defined.

(** ** Outreach content in template mode *)

Lemma split_ws_aux_nil (k : nat) (s cur : list ascii) :
  split_ws_aux k s cur = [] <-> cur = [] /\ drop_spaces py_space_len k s = [].
Proof.
  revert k cur. induction s as [|c s IH]; intros k cur.
  - simpl. destruct cur; split; intros H; try discriminate; auto.
    destruct H as [H _]; discriminate.
  - destruct k as [|k]; cbn [split_ws_aux drop_spaces]; [|apply IH].
    destruct (py_space_len (c :: s)) as [|k].
    + rewrite IH. split; intros H; destruct H as [H1 H2]; discriminate.
    + destruct cur as [|x cur]; [rewrite IH; tauto|].
      split; [discriminate | intros [H _]; discriminate].
Qed.

Lemma first_name_of_str (s : string) :
  s <> "" ->
  (lstrip_ws (list_ascii_of_string s) = [] ->
     first_name_of (VStr s) = inl "IndexError: list index out of range") /\
  (lstrip_ws (list_ascii_of_string s) <> [] ->
     exists w, first_name_of (VStr s) = inr w).
Proof.
  intros Hs. unfold first_name_of, py_split_ws.
  replace (truthy (VStr s)) with true by (destruct s; [congruence | reflexivity]).
  split; intros H.
  - assert (E : split_ws_aux 0 (list_ascii_of_string s) [] = []) by (apply split_ws_aux_nil; auto).
    rewrite E. reflexivity.
  - destruct (split_ws_aux 0 (list_ascii_of_string s) []) as [|w ws] eqn:E.
    + apply split_ws_aux_nil in E. destruct E as [_ E]. contradiction.
    + eexists. reflexivity.
Qed.

Lemma py_slice_upto_map {A B : Type} (f : A -> B) (l : list A) (n : option Z) :
  py_slice_upto (map f l) n = map f (py_slice_upto l n).
Proof.
  destruct n as [n|]; [|reflexivity]. unfold py_slice_upto.
  rewrite length_map. destruct (0 <=? n)%Z; apply firstn_map.
Qed.

Lemma generate_all_inline (py_str : value -> string) (h : heap) (ls : list dict) :
  Forall (fun d => exists s, dict_get "contact_name" d = Some (VStr s) /\
                             lstrip_ws (list_ascii_of_string s) <> []) ls ->
  exists ms, generate_all py_str h (map VObj ls) = inr ms /\
    Forall2 (fun d m =>
      dict_get "lead" m = Some (dict_get_default "company" (VStr "your company") d) /\
      dict_get "email" m = Some (dict_get_default "email" (VStr "") d) /\
      dict_get "generated_by" m = Some (VStr "template")) ls ms.
Proof.
  induction 1 as [|d ds [s [Hs Hsp]] _ [ms [Hms Hf]]]; [exists []; split; constructor|].
  assert (Hne : s <> "") by (intros ->; apply Hsp; reflexivity).
  destruct (proj2 (first_name_of_str s Hne) Hsp) as [w Hw].
  simpl. unfold generate_email_template.
  assert (Hc : dict_get_default "contact_name" (VStr "there") d = VStr s)
    by (unfold dict_get_default; rewrite Hs; reflexivity).
  rewrite Hc, Hw. cbn [bind]. rewrite Hms. cbn [bind].
  eexists. split; [reflexivity|]. constructor; [|exact Hf].
  repeat split.
Qed.

(** In template mode, on a list of inline lead dicts whose contact names are
    strings that are not blank, [OutreachContentAgent.run] returns one
    message per lead of [ranked_leads[:top_n]], in order; each carries the
    lead's company (or ["your company"]) as [lead], its email, and
    [generated_by = "template"]. *)
Theorem outreach_one_message_per_lead (py_str : value -> string) (h : heap) (inputs : dict)
    (ls : list dict) (n : option Z) :
  dict_get_default "ranked_leads" (VList []) inputs = VList (map VObj ls) ->
  slice_index (dict_get_default "top_n" (VNum 10) inputs) = inr n ->
  Forall (fun d => exists s, dict_get "contact_name" d = Some (VStr s) /\
                             lstrip_ws (list_ascii_of_string s) <> []) ls ->
  exists ms, outreach_template_body py_str h inputs = inr [("messages", VList (map VObj ms))] /\
    Forall2 (fun d m =>
      dict_get "lead" m = Some (dict_get_default "company" (VStr "your company") d) /\
      dict_get "email" m = Some (dict_get_default "email" (VStr "") d) /\
      dict_get "generated_by" m = Some (VStr "template")) (py_slice_upto ls n) ms.
Proof.
  intros Hl Hn Hc. unfold outreach_template_body. rewrite Hn, Hl. cbn [bind].
  rewrite py_slice_upto_map.
  assert (Hc' : Forall (fun d => exists s, dict_get "contact_name" d = Some (VStr s) /\
                   lstrip_ws (list_ascii_of_string s) <> []) (py_slice_upto ls n)).
  { destruct n as [n|]; [|exact Hc]. unfold py_slice_upto.
    destruct (0 <=? n)%Z; match goal with |- Forall _ (firstn ?k _) =>
      rewrite <- (firstn_skipn k ls) in Hc; apply Forall_app in Hc; apply Hc end. }
  destruct (generate_all_inline py_str h _ Hc') as [ms [Hms Hf]].
  unfold dict in *. rewrite Hms. exists ms. split; [reflexivity | exact Hf].
Qed.

Lemma outreach_one_message_per_lead_witness :
  exists ms, outreach_template_body (fun _ => "") []
      [("ranked_leads", VList (map VObj (firstn 3 mock_companies))); ("top_n", VNum 2)]
      = inr [("messages", VList (map VObj ms))] /\
    Forall2 (fun d m =>
      dict_get "lead" m = Some (dict_get_default "company" (VStr "your company") d) /\
      dict_get "email" m = Some (dict_get_default "email" (VStr "") d) /\
      dict_get "generated_by" m = Some (VStr "template"))
      (py_slice_upto (firstn 3 mock_companies) (Some 2%Z)) ms.
Proof.
  apply outreach_one_message_per_lead; [reflexivity | reflexivity |].
  cbn [firstn mock_companies].
  repeat (apply Forall_cons; [eexists; split; [reflexivity | vm_compute; discriminate]|]).
  apply Forall_nil.
Defined.

Lemma generate_all_blank (py_str : value -> string) (h : heap) (ls : list dict) (d : dict)
    (s : string) :
  In d ls -> s <> "" -> dict_get "contact_name" d = Some (VStr s) ->
  lstrip_ws (list_ascii_of_string s) = [] ->
  exists e, generate_all py_str h (map VObj ls) = inl e.
Proof.
  intros Hin Hne Hs Hsp. induction ls as [|d' ls IH]; [destruct Hin|].
  simpl. unfold bind at 1, generate_email_template.
  destruct Hin as [->|Hin].
  - assert (Hc : dict_get_default "contact_name" (VStr "there") d = VStr s)
      by (unfold dict_get_default; rewrite Hs; reflexivity).
    rewrite Hc, (proj1 (first_name_of_str s Hne) Hsp). eexists; reflexivity.
  - destruct (first_name_of _); [eexists; reflexivity|]. cbn [bind].
    destruct (IH Hin) as [e He]. rewrite He. eexists; reflexivity.
Qed.

(** In template mode, a lead among [ranked_leads[:top_n]] whose contact name
    is a non-empty string of whitespace only makes [OutreachContentAgent.run]
    fail: [contact_name.split()[0]] raises, and no messages are returned. *)
Theorem outreach_blank_contact_name_fails (py_str : value -> string) (h : heap) (inputs : dict)
    (ls : list dict) (n : option Z) (d : dict) (s : string) :
  dict_get_default "ranked_leads" (VList []) inputs = VList (map VObj ls) ->
  slice_index (dict_get_default "top_n" (VNum 10) inputs) = inr n ->
  In d (py_slice_upto ls n) -> s <> "" -> dict_get "contact_name" d = Some (VStr s) ->
  lstrip_ws (list_ascii_of_string s) = [] ->
  exists e, outreach_template_body py_str h inputs = inl e.
Proof.
  intros Hl Hn Hin Hne Hs Hsp. unfold outreach_template_body. rewrite Hn, Hl. cbn [bind].
  rewrite py_slice_upto_map.
  destruct (generate_all_blank py_str h _ d s Hin Hne Hs Hsp) as [e He].
  unfold dict in *. rewrite He. eexists; reflexivity.
Qed.

Lemma outreach_blank_contact_name_fails_witness :
  exists e, outreach_template_body (fun _ => "") []
      [("ranked_leads", VList [VObj [("company", VStr "Acme"); ("contact_name", VStr "  ")]])]
      = inl e.
Proof.
  apply (outreach_blank_contact_name_fails (fun _ => "") [] _
           [[("company", VStr "Acme"); ("contact_name", VStr "  ")]] (Some 10%Z)
           [("company", VStr "Acme"); ("contact_name", VStr "  ")] "  ");
    [reflexivity | reflexivity | left; reflexivity | discriminate | reflexivity | reflexivity].
Defined.

(** ** Feedback recommendations *)







(** ** Scoring: ties *)

Lemma Qlt_bool_iff (a b : Q) : Qlt_bool a b = true <-> a < b.
Proof.
  unfold Qlt_bool. rewrite negb_true_iff. split.
  - intros H. apply Qnot_le_lt. intros Hle. apply Qle_bool_iff in Hle. congruence.
  - intros H. destruct (Qle_bool b a) eqn:E; [|reflexivity].
    apply Qle_bool_iff in E. exfalso. exact (Qlt_not_le _ _ H E).
Qed.

Lemma Qlt_bool_false_iff (a b : Q) : Qlt_bool a b = false <-> b <= a.
Proof.
  split; [apply Qlt_bool_false|]. intros H. destruct (Qlt_bool a b) eqn:E; [|reflexivity].
  apply Qlt_bool_iff in E. exfalso. exact (Qlt_not_le _ _ E H).
Qed.

(** [<] and [<=] on the extended reals chain as on [Q]. *)
Lemma ext_lt_trans (x y z : ext) :
  ext_lt x y = true -> ext_lt y z = true -> ext_lt x z = true.
Proof.
  destruct x as [|x|], y as [|y|], z as [|z|]; simpl; intros H1 H2;
    try discriminate; try reflexivity.
  apply Qlt_bool_iff in H1, H2. apply Qlt_bool_iff. exact (Qlt_trans _ _ _ H1 H2).
Qed.

Lemma ext_lt_le_trans (x y z : ext) :
  ext_lt x y = true -> ext_lt z y = false -> ext_lt x z = true.
Proof.
  destruct x as [|x|], y as [|y|], z as [|z|]; simpl; intros H1 H2;
    try discriminate; try reflexivity.
  apply Qlt_bool_iff in H1. apply Qlt_bool_false_iff in H2. apply Qlt_bool_iff.
  exact (Qlt_le_trans _ _ _ H1 H2).
Qed.

Lemma ext_le_lt_trans (x y z : ext) :
  ext_lt y x = false -> ext_lt y z = true -> ext_lt x z = true.
Proof.
  destruct x as [|x|], y as [|y|], z as [|z|]; simpl; intros H1 H2;
    try discriminate; try reflexivity.
  apply Qlt_bool_false_iff in H1. apply Qlt_bool_iff in H2. apply Qlt_bool_iff.
  exact (Qle_lt_trans _ _ _ H1 H2).
Qed.

Lemma ext_le_trans (x y z : ext) :
  ext_lt y x = false -> ext_lt z y = false -> ext_lt z x = false.
Proof.
  destruct x as [|x|], y as [|y|], z as [|z|]; simpl; intros H1 H2;
    try discriminate; try reflexivity.
  apply Qlt_bool_false_iff in H1, H2. apply Qlt_bool_false_iff.
  exact (Qle_trans _ _ _ H1 H2).
Qed.

Lemma num_lt_le_false (a b : pynum) : num_lt a b = true -> num_le b a = false.
Proof.
  unfold num_lt, num_le. destruct (num_ext a), (num_ext b); try discriminate.
  intros H. rewrite H. reflexivity.
Qed.

Lemma score_then_loc_trans (a b c : loc * pynum) :
  key_ok a -> key_ok b -> key_ok c ->
  score_then_loc a b -> score_then_loc b c -> score_then_loc a c.
Proof.
  unfold key_ok, score_then_loc, num_lt, num_le.
  destruct (num_ext (snd a)) as [ea|]; [|congruence].
  destruct (num_ext (snd b)) as [eb|]; [|congruence].
  destruct (num_ext (snd c)) as [ec|]; [|congruence].
  intros _ _ _ [H1|(H1 & H1' & H1'')] [H2|(H2 & H2' & H2'')];
    rewrite ?negb_true_iff in *.
  - left. exact (ext_lt_trans _ _ _ H2 H1).
  - left. exact (ext_le_lt_trans _ _ _ H2' H1).
  - left. exact (ext_lt_le_trans _ _ _ H2 H1').
  - right.
    split; [exact (ext_le_trans _ _ _ H1 H2)|].
    split; [exact (ext_le_trans _ _ _ H2' H1') | lia].
Qed.

Lemma Sorted_StronglySorted_on {A : Type} (P : A -> Prop) (R : A -> A -> Prop) :
  (forall a b c, P a -> P b -> P c -> R a b -> R b c -> R a c) ->
  forall l, Forall P l -> Sorted R l -> StronglySorted R l.
Proof.
  intros Htr.
  assert (Hhd : forall l a, Forall P (a :: l) -> Sorted R l -> HdRel R a l -> Forall (R a) l).
  { induction l as [|b l IH]; intros a Hp Hs Hh; [constructor|].
    inversion Hh as [|? ? Hab]; subst.
    inversion Hp as [|? ? Pa Hp1]; subst. inversion Hp1 as [|? ? Pb Hp2]; subst.
    apply Sorted_inv in Hs as [Hs1 Hh1].
    constructor; [exact Hab|].
    apply IH; [constructor; assumption | exact Hs1 |].
    destruct l as [|c l]; [constructor|]. inversion Hh1 as [|? ? Hbc]; subst.
    inversion Hp2 as [|? ? Pc _]; subst. constructor. exact (Htr a b c Pa Pb Pc Hab Hbc). }
  induction l as [|a l IH]; intros Hp Hs; [constructor|].
  pose proof Hp as Hp0. inversion Hp as [|? ? _ Hp']; subst.
  apply Sorted_inv in Hs as [Hs Hh].
  constructor; [apply IH; assumption|]. apply Hhd; assumption.
Qed.

Lemma insert_desc_stable (x : loc * pynum) (l : list (loc * pynum)) :
  key_ok x -> Forall key_ok l ->
  Sorted score_then_loc l -> Forall (fun y => (fst y < fst x)%nat) l ->
  Sorted score_then_loc (insert_desc x l).
Proof.
  intros Hx. induction l as [|y l IH]; intros Hk Hs Hf; simpl; [repeat constructor|].
  inversion Hf as [|? ? Hy Hf']; subst. inversion Hk as [|? ? Hky Hk']; subst.
  destruct (num_lt (snd y) (snd x)) eqn:E.
  - constructor; [exact Hs|]. constructor. left. exact E.
  - apply Sorted_inv in Hs as [Hs Hhd].
    assert (Hyx : score_then_loc y x).
    { unfold score_then_loc. destruct (num_lt (snd x) (snd y)) eqn:E'; [left; reflexivity|].
      right. split; [apply num_lt_false_le; assumption|].
      split; [apply num_lt_false_le; assumption | exact Hy]. }
    constructor; [apply IH; assumption|].
    destruct l as [|z l]; simpl; [constructor; exact Hyx|].
    destruct (num_lt (snd z) (snd x)); constructor; [exact Hyx|].
    inversion Hhd; assumption.
Qed.

Lemma sort_desc_stable_aux (l acc : list (loc * pynum)) :
  Forall key_ok l -> Forall key_ok acc ->
  Sorted score_then_loc acc -> StronglySorted (fun a b => (fst a < fst b)%nat) l ->
  (forall y z, In y acc -> In z l -> (fst y < fst z)%nat) ->
  Sorted score_then_loc (fold_left (fun acc x => insert_desc x acc) l acc).
Proof.
  revert acc. induction l as [|x l IH]; intros acc Hkl Hka Hs Hl Hlt; simpl; [exact Hs|].
  inversion Hkl as [|? ? Hkx Hkl']; subst.
  apply StronglySorted_inv in Hl as [Hl Hx].
  apply IH; [exact Hkl' | | | exact Hl |].
  - apply (Forall_perm _ (x :: acc)); [apply insert_desc_perm | constructor; assumption].
  - apply insert_desc_stable; [exact Hkx | exact Hka | exact Hs |].
    apply Forall_forall. intros y Hy. apply Hlt; [exact Hy | left; reflexivity].
  - intros y z Hy Hz.
    apply (Permutation_in _ (Permutation_sym (insert_desc_perm x acc))) in Hy.
    destruct Hy as [<-|Hy].
    + rewrite Forall_forall in Hx. apply Hx, Hz.
    + apply Hlt; [exact Hy | right; exact Hz].
Qed.

Lemma StronglySorted_map_inv {A B : Type} (f : A -> B) (R : B -> B -> Prop) (l : list A) :
  StronglySorted R (map f l) -> StronglySorted (fun a b => R (f a) (f b)) l.
Proof.
  induction l as [|x l IH]; simpl; intros Hs; [constructor|].
  apply StronglySorted_inv in Hs as [Hs Hx]. constructor; [apply IH, Hs|].
  apply Forall_forall. intros y Hy. rewrite Forall_forall in Hx. apply Hx, in_map, Hy.
Qed.

Lemma seq_offset (s n : nat) : seq s n = map (fun i => s + i)%nat (seq 0 n).
Proof.
  revert s. induction n as [|n IH]; intros s; simpl; [reflexivity|].
  f_equal; [lia|]. rewrite (IH (S s)), (IH 1%nat), map_map. apply map_ext. intros; lia.
Qed.

Lemma StronglySorted_nth {A : Type} (R : A -> A -> Prop) (l : list A) (j k : nat) (a b : A) :
  StronglySorted R l -> (j < k)%nat -> nth_error l j = Some a -> nth_error l k = Some b -> R a b.
Proof.
  revert j k. induction l as [|x l IH]; intros j k Hs Hjk Ha Hb; [destruct j; discriminate|].
  apply StronglySorted_inv in Hs as [Hs Hx].
  destruct j as [|j], k as [|k]; simpl in Ha, Hb; try lia.
  - injection Ha as <-. rewrite Forall_forall in Hx. apply Hx. eapply nth_error_In. exact Hb.
  - apply (IH j k); [exact Hs | lia | exact Ha | exact Hb].
Qed.

(** When every lead can be scored (a dict with a ["company"] whose score is
    not a NaN, as in C10), [ScoringAgent.run] ranks leads with equal scores
    in their input order: the ranked copies are the copies of the leads in
    some order, and of two copies whose scores are equal (each at most the
    other), the copy of the earlier lead comes first. *)
Theorem scoring_ties_keep_input_order (h : heap) (inputs crit : dict) (ls : list value) :
  dict_get "leads" inputs = Some (VList ls) -> ls <> [] ->
  deref h (dict_get_default "scoring_criteria" (VObj []) inputs) = inr crit ->
  Forall (scorable_lead h (dict_get_default "revenue_weight" (VNum (3 # 10)) crit)
                          (dict_get_default "employee_count_weight" (VNum (2 # 10)) crit)
                          (dict_get_default "signal_weight" (VNum (5 # 10)) crit)) ls ->
  exists h' idx,
    ScoringAgent_run h inputs
      = (h', inr [("ranked_leads", VList (map (fun i => VRef (List.length h + i)%nat) idx))]) /\
    Permutation idx (seq 0 (List.length ls)) /\
    forall j k i1 i2 p1 p2, (j < k)%nat -> nth_error idx j = Some i1 -> nth_error idx k = Some i2 ->
      score_of h' (List.length h + i1)%nat = Some p1 -> score_of h' (List.length h + i2)%nat = Some p2 ->
      num_le p1 p2 = true -> num_le p2 p1 = true -> (i1 < i2)%nat.
Proof.
  intros Hleads Hne Hcrit Hok.
  set (rw := dict_get_default "revenue_weight" (VNum (3 # 10)) crit) in *.
  set (ew := dict_get_default "employee_count_weight" (VNum (2 # 10)) crit) in *.
  set (sw := dict_get_default "signal_weight" (VNum (5 # 10)) crit) in *.
  assert (Hval : Forall (valid_ref h) ls)
    by (eapply Forall_impl; [|exact Hok]; intros v (d & p & Hd & _); eapply deref_valid; exact Hd).
  destruct (score_leads_ok ls h rw ew sw Hok) as (h1 & scored & Hsc).
  destruct (score_leads_spec ls h rw ew sw h1 scored Hval Hsc) as (S1 & S2 & S3 & S4).
  assert (Hbound : forall i v, nth_error ls i = Some v ->
            exists d p, deref h v = inr d /\
              nth_error scored i = Some ((List.length h + i)%nat, p) /\
              nth_error h1 (List.length h + i) = Some (dict_set "score" (value_of_num p) d) /\
              num_ext p <> None).
  { intros i v Hv. destruct (S4 i v Hv) as (d & p0 & Hd & Hc & Hs & Hh).
    exists d, (num_round2 p0). split; [exact Hd|]. split; [exact Hs|]. split; [exact Hh|].
    rewrite Forall_forall in Hok. destruct (Hok v (nth_error_In _ _ Hv)) as (d' & p' & Hd' & _ & Hc' & Hp').
    rewrite Hd in Hd'. injection Hd' as <-. rewrite Hc in Hc'. injection Hc' as <-.
    exact (num_le_ext _ _ (calculate_score_le d rw ew sw p0 Hc Hp')). }
  assert (Hfst : map fst scored = seq (List.length h) (List.length ls)).
  { apply nth_error_ext. intros i. rewrite nth_error_map, nth_error_seq.
    destruct (Nat.ltb i (List.length ls)) eqn:Hi.
    - apply Nat.ltb_lt in Hi.
      destruct (nth_error ls i) as [v|] eqn:Hv; [|apply nth_error_None in Hv; lia].
      destruct (Hbound i v Hv) as (d & p & _ & Hs & _). rewrite Hs. reflexivity.
    - apply Nat.ltb_ge in Hi.
      assert (Hn : nth_error scored i = None) by (apply nth_error_None; lia).
      rewrite Hn. reflexivity. }
  assert (Hkeys : Forall key_ok scored).
  { apply Forall_forall. intros [l p] Hp.
    destruct (In_nth_error _ _ Hp) as [i Hi].
    assert (Hlen : (i < List.length ls)%nat) by (rewrite <- S1; apply nth_error_Some; congruence).
    destruct (nth_error ls i) as [v|] eqn:Hv; [|apply nth_error_None in Hv; lia].
    destruct (Hbound i v Hv) as (d & p' & _ & Hs & _ & Hext).
    rewrite Hs in Hi. injection Hi as _ <-. exact Hext. }
  set (ranked := map fst (sort_desc scored)).
  assert (Hperm : Permutation (seq (List.length h) (List.length ls)) ranked)
    by (rewrite <- Hfst; apply Permutation_map, sort_desc_perm).
  assert (Hnd : NoDup ranked) by (eapply Permutation_NoDup; [exact Hperm | apply seq_NoDup]).
  assert (Hin_r : forall l, In l ranked <->
                    (List.length h <= l < List.length h + List.length ls)%nat).
  { intros l. rewrite <- in_seq. split; intros Hl.
    - eapply Permutation_in; [symmetry; exact Hperm | exact Hl].
    - eapply Permutation_in; [exact Hperm | exact Hl]. }
  assert (Hlt : Forall (fun l => l < List.length h1)%nat ranked)
    by (apply Forall_forall; intros l Hl; apply Hin_r in Hl; lia).
  destruct (set_rankings_spec ranked h1 1 Hnd Hlt) as (R1 & R2 & R3).
  set (h2 := set_rankings h1 ranked 1) in *.
  assert (Hcell : forall i v, nth_error ls i = Some v ->
            exists d p j, deref h v = inr d /\
              nth_error h2 (List.length h + i)
                = Some (dict_set "ranking" (VNum (Z.of_nat (1 + j) # 1))
                          (dict_set "score" (value_of_num p) d)) /\
              nth_error scored i = Some ((List.length h + i)%nat, p)).
  { intros i v Hv. destruct (Hbound i v Hv) as (d & p & Hd & Hs & Hh & _).
    assert (Hi : In (List.length h + i)%nat ranked).
    { apply Hin_r. assert (i < List.length ls)%nat by (apply nth_error_Some; congruence). lia. }
    destruct (In_nth_error _ _ Hi) as [j Hj].
    exists d, p, j. split; [exact Hd|]. split; [apply R3; assumption | exact Hs]. }
  (* the score each sorted pair carries is the one its copy holds *)
  assert (Hscore : forall p, In p (sort_desc scored) -> score_of h2 (fst p) = Some (snd p)).
  { intros [l p'] Hp. simpl.
    apply (Permutation_in _ (Permutation_sym (sort_desc_perm scored))) in Hp.
    destruct (In_nth_error _ _ Hp) as [i' Hi'].
    assert (Hlen : (i' < List.length ls)%nat)
      by (rewrite <- S1; apply nth_error_Some; congruence).
    destruct (nth_error ls i') as [v'|] eqn:Hv'; [|apply nth_error_None in Hv'; lia].
    destruct (Hcell i' v' Hv') as (d' & p'' & j' & _ & Hh' & Hs').
    rewrite Hs' in Hi'. injection Hi' as <- <-.
    unfold score_of. rewrite Hh'. rewrite dict_get_set. simpl.
    rewrite dict_get_set. simpl. rewrite num_of_value_of_num. reflexivity. }
  assert (Hstable : StronglySorted score_then_loc (sort_desc scored)).
  { apply (Sorted_StronglySorted_on key_ok); [exact score_then_loc_trans | |].
    - apply (Forall_perm _ scored); [apply sort_desc_perm | exact Hkeys].
    - apply sort_desc_stable_aux; [exact Hkeys | constructor | constructor | | intros y z []].
      apply (StronglySorted_map_inv (@fst loc pynum) (fun a b => (a < b)%nat)).
      rewrite Hfst. apply Sorted_StronglySorted; [intros a b c; lia|].
      apply Sorted_LocallySorted_iff. clear. generalize (List.length h).
      induction (List.length ls) as [|n IH]; intros s; [constructor|].
      destruct n as [|n]; simpl; constructor; [apply IH | lia]. }
  (* the run's result *)
  assert (Hvi : validate_inputs inputs ["leads"] = true)
    by (unfold validate_inputs, dict_mem; simpl; rewrite Hleads; reflexivity).
  assert (Hl : dict_get_default "leads" (VList []) inputs = VList ls)
    by (unfold dict_get_default; rewrite Hleads; reflexivity).
  assert (Ht : truthy_in h (VList ls) = true) by (destruct ls; [congruence | reflexivity]).
  assert (Hsrc : forall l, In l ranked -> exists i v, nth_error ls i = Some v /\
                   l = (List.length h + i)%nat).
  { intros l Hl'. apply Hin_r in Hl'. exists (l - List.length h)%nat.
    destruct (nth_error ls (l - List.length h)%nat) as [v|] eqn:Hv;
      [|apply nth_error_None in Hv; lia].
    exists v. split; [reflexivity | lia]. }
  unfold ScoringAgent_run. rewrite Hvi, Hl, Ht. cbn [negb iter_leads]. rewrite Hcrit.
  fold rw ew sw. rewrite Hsc. cbn match.
  fold ranked. fold h2.
  assert (Hcons : exists top rest, ranked = top :: rest).
  { destruct ranked as [|top rest]; [|eauto].
    exfalso. apply Permutation_length in Hperm. rewrite length_seq in Hperm.
    simpl in Hperm. destruct ls; [congruence | discriminate]. }
  destruct Hcons as (top & rest & Er).
  assert (Htop : In top ranked) by (rewrite Er; left; reflexivity).
  destruct (Hsrc top Htop) as (i & v & Hv & Etop).
  destruct (Hcell i v Hv) as (d & p & j & Hd & Hh & Hs).
  assert (Hcomp : dict_mem "company" d = true).
  { rewrite Forall_forall in Hok.
    destruct (Hok v (nth_error_In _ _ Hv)) as (d' & p' & Hd' & Hc & _). congruence. }
  set (idx := map (fun l => (l - List.length h)%nat) ranked).
  assert (Hidx : map (fun i => List.length h + i)%nat idx = ranked).
  { unfold idx. rewrite map_map. rewrite <- (map_id ranked) at 2. apply map_ext_in.
    intros l Hl'. apply Hin_r in Hl'. lia. }
  exists h2, idx. split.
  { rewrite <- (map_map (fun i => List.length h + i)%nat VRef), Hidx.
    rewrite Er at 1. cbn match. rewrite Etop, Hh.
    rewrite (dict_mem_set _ _ _ _ (dict_mem_set _ _ _ _ Hcomp)). reflexivity. }
  split.
  { unfold idx. rewrite <- Hperm, <- (map_id (seq 0 (List.length ls))).
    replace (seq (List.length h) (List.length ls))
      with (map (fun i => List.length h + i)%nat (seq 0 (List.length ls)))
      by (symmetry; apply seq_offset).
    rewrite map_map. apply Permutation_refl'. apply map_ext. intros a. lia. }
  intros j' k' i1 i2 p1 p2 Hjk H1 H2 Hq1 Hq2 Hle12 Hle21.
  assert (Hr1 : nth_error ranked j' = Some (List.length h + i1)%nat)
    by (rewrite <- Hidx, nth_error_map, H1; reflexivity).
  assert (Hr2 : nth_error ranked k' = Some (List.length h + i2)%nat)
    by (rewrite <- Hidx, nth_error_map, H2; reflexivity).
  unfold ranked in Hr1, Hr2. rewrite nth_error_map in Hr1, Hr2.
  destruct (nth_error (sort_desc scored) j') as [[l1 s1]|] eqn:E1; [|discriminate].
  destruct (nth_error (sort_desc scored) k') as [[l2 s2]|] eqn:E2; [|discriminate].
  simpl in Hr1, Hr2. injection Hr1 as Hl1. injection Hr2 as Hl2.
  pose proof (Hscore _ (nth_error_In _ _ E1)) as Hs1.
  pose proof (Hscore _ (nth_error_In _ _ E2)) as Hs2.
  simpl in Hs1, Hs2. rewrite Hl1 in Hs1. rewrite Hl2 in Hs2.
  rewrite Hs1 in Hq1. rewrite Hs2 in Hq2. injection Hq1 as <-. injection Hq2 as <-.
  destruct (StronglySorted_nth _ _ _ _ _ _ Hstable Hjk E1 E2) as [Hlt'|(_ & _ & Hlt')];
    simpl in Hlt'.
  - rewrite (num_lt_le_false _ _ Hlt') in Hle12. discriminate.
  - lia.
Qed.

Lemma scoring_ties_keep_input_order_witness :
  exists h' idx,
    ScoringAgent_run [] scoring_tie_inputs
      = (h', inr [("ranked_leads", VList (map (fun i => VRef (List.length (@nil dict) + i)%nat) idx))]) /\
    Permutation idx (seq 0 (List.length scoring_tie_leads)) /\
    forall j k i1 i2 p1 p2, (j < k)%nat -> nth_error idx j = Some i1 -> nth_error idx k = Some i2 ->
      score_of h' (List.length (@nil dict) + i1)%nat = Some p1 ->
      score_of h' (List.length (@nil dict) + i2)%nat = Some p2 ->
      num_le p1 p2 = true -> num_le p2 p1 = true -> (i1 < i2)%nat.
Proof.
  apply (scoring_ties_keep_input_order [] scoring_tie_inputs [] scoring_tie_leads);
    [reflexivity | discriminate | reflexivity |].
  unfold scoring_tie_leads.
  repeat (apply Forall_cons;
          [do 2 eexists; split; [reflexivity|]; split; [reflexivity|];
           split; [cbv; reflexivity | vm_compute; discriminate] |]).
  apply Forall_nil.
Defined.
